(** * Pact interaction builder and mock-server lifecycle (pact/v3/pact.py)

    A shallow embedding of the classes [Interaction], [HttpInteraction],
    [AsyncMessageInteraction], [SyncMessageInteraction], [Pact] and
    [PactServer].  Methods are computations in a small state-and-exception
    monad; every call into the native binding [pact.v3.ffi] is recorded in
    the world, and the binding itself is a parameter of the development. *)

From stdpp Require Import gmap strings list.
From Stdlib Require Import ZArith Ascii.

Local Open Scope Z_scope.
Local Open Scope string_scope.
Local Open Scope list_scope.

(** ** Python values and control flow *)

(** Exceptions that can leave a method of this module. *)
Inductive Exn :=
| ValueError (msg : string)
| KeyError (key : string)
| RuntimeError (msg : string)
| EngineError          (* raised inside a [pact.v3.ffi] function *)
| JSONEncodeError.     (* raised inside [json.dumps] *)

Inductive Result (A : Type) :=
| Return (a : A)
| Raise (e : Exn).
Arguments Return {A} a.
Arguments Raise {A} e.

(** A method body: it reads and writes the state [S] and either returns or
    raises.  State written before a [raise] stays written, as in Python.
    The state of a method is the object with the world, [(self, world)]; a
    method that ends in [return self] returns [tt], the object being the one
    in the state. *)
Definition Py (S A : Type) : Type := S → Result A * S.

Definition py_ret {S A} (a : A) : Py S A := λ s, (Return a, s).

Definition py_bind {S A B} (f : A → Py S B) (m : Py S A) : Py S B :=
  λ s, match m s with
       | (Return a, s') => f a s'
       | (Raise e, s') => (Raise e, s')
       end.

Definition raise {S A} (e : Exn) : Py S A := λ s, (Raise e, s).
Definition get_state {S} : Py S S := λ s, (Return s, s).
Definition gets {S A} (f : S → A) : Py S A := λ s, (Return (f s), s).
Definition modify {S} (f : S → S) : Py S unit := λ s, (Return tt, f s).

#[export] Instance py_mret {S} : MRet (Py S) := @py_ret S.
#[export] Instance py_mbind {S} : MBind (Py S) := @py_bind S.

(** [for x in xs: body x]; the loop stops at the first exception. *)
Fixpoint for_each {S A} (xs : list A) (body : A → Py S unit) : Py S unit :=
  match xs with
  | [] => mret tt
  | x :: rest => body x;; for_each rest body
  end.

Definition outcome {S A} (r : Result A * S) : Result A := fst r.
Definition final {S A} (r : Result A * S) : S := snd r.

(** Strings are ASCII strings, on which [str.lower] and [str.upper] change
    the letters and nothing else, character by character. *)
Definition lower_char (c : ascii) : ascii :=
  let n := nat_of_ascii c in
  if ((65 <=? n)%nat && (n <=? 90)%nat)%bool then ascii_of_nat (n + 32) else c.

Definition upper_char (c : ascii) : ascii :=
  let n := nat_of_ascii c in
  if ((97 <=? n)%nat && (n <=? 122)%nat)%bool then ascii_of_nat (n - 32) else c.

Fixpoint str_map (f : ascii → ascii) (s : string) : string :=
  match s with
  | EmptyString => EmptyString
  | String c rest => String (f c) (str_map f rest)
  end.

Definition lower (s : string) : string := str_map lower_char s.
Definition upper (s : string) : string := str_map upper_char s.

(** [s.replace(".", "_")]: a one-character pattern, so a character map. *)
Definition dot_char (c : ascii) : ascii :=
  if Ascii.eqb c "."%char then "_"%char else c.

Definition replace_dot (s : string) : string := str_map dot_char s.

(** [s.startswith("V")] *)
Definition startswith_V (s : string) : bool :=
  match s with
  | String c _ => Ascii.eqb c "V"%char
  | EmptyString => false
  end.

(** An argument typed [dict[...] | str]. *)
Inductive DictOrStr (D : Type) :=
| a_dict (d : D)
| a_str (s : string).
Arguments a_dict {D} d.
Arguments a_str {D} s.

(** A [dict[str, str]] keeps its items in insertion order. *)
Definition StrDict := list (string * string).
Definition items (d : StrDict) : list (string * string) := d.

(** An argument typed [dict[str, str] | Iterable[tuple[str, str]]]. *)
Inductive DictOrPairs :=
| pairs_dict (d : StrDict)
| pairs_iter (l : list (string * string)).

(** A [defaultdict(int)]: reading a missing key stores and gives 0. *)
Definition dd_getitem `{Countable K} (k : K) (d : gmap K Z) : Z * gmap K Z :=
  match d !! k with
  | Some v => (v, d)
  | None => (0, <[k := 0]> d)
  end.

(** ** The native binding [pact.v3.ffi] *)

Module ffi.

Inductive InteractionPart := REQUEST | RESPONSE.

#[global] Instance InteractionPart_eq_dec : EqDecision InteractionPart.
Proof. solve_decision. Defined.

#[global] Instance InteractionPart_countable : Countable InteractionPart.
Proof.
  refine (inj_countable' (λ p, match p with REQUEST => false | RESPONSE => true end)
                         (λ b : bool, if b then RESPONSE else REQUEST) _).
  by intros [].
Defined.

(** Handles are opaque references handed out by the engine. *)
Record PactHandle := { pact_ref : Z }.
Record InteractionHandle := { interaction_ref : Z }.
Record PactServerHandle := { port : Z }.

#[global] Instance InteractionHandle_eq_dec : EqDecision InteractionHandle.
Proof. solve_decision. Defined.

(** A member of the [PactSpecification] enumeration. *)
Inductive PactSpecification := Member (value : Z).

(** One constructor per binding function called from pact.py, with the
    arguments in the order of the call. *)
Inductive Call :=
  | new_pact (consumer provider : string)
  | new_interaction (pact : PactHandle) (description : string)
  | new_message_interaction (pact : PactHandle) (description : string)
  | new_sync_message_interaction (pact : PactHandle) (description : string)
  | given (h : InteractionHandle) (state : string)
  | given_with_param (h : InteractionHandle) (state name value : string)
  | given_with_params (h : InteractionHandle) (state params : string)
  | with_body (h : InteractionHandle) (part : InteractionPart)
              (content_type : string) (body : option string)
  | with_binary_file (h : InteractionHandle) (part : InteractionPart)
                     (content_type : string) (body : option (list Byte.byte))
  | with_multipart_file_v2 (h : InteractionHandle) (part : InteractionPart)
                           (part_name : string) (path : option string)
                           (content_type : string) (boundary : option string)
  | interaction_test_name (h : InteractionHandle) (name : string)
  | interaction_contents (h : InteractionHandle) (part : InteractionPart)
                         (content_type contents : string)
  | with_request (h : InteractionHandle) (method path : string)
  | with_header_v2 (h : InteractionHandle) (part : InteractionPart)
                   (name : string) (index : Z) (value : string)
  | set_header (h : InteractionHandle) (part : InteractionPart)
               (name value : string)
  | with_query_parameter_v2 (h : InteractionHandle) (name : string)
                            (index : Z) (value : string)
  | response_status (h : InteractionHandle) (status : Z)
  | with_specification (pact : PactHandle) (version : PactSpecification)
  | using_plugin (pact : PactHandle) (name : string) (version : option string)
  | with_pact_metadata (pact : PactHandle) (namespace k v : string)
  | create_mock_server_for_transport (pact : PactHandle) (host : string)
      (port : Z) (transport : string) (transport_config : option string)
  | pact_handle_get_message_iter (pact : PactHandle)
  | pact_handle_get_sync_http_iter (pact : PactHandle)
  | pact_handle_get_sync_message_iter (pact : PactHandle)
  | pact_handle_write_file (pact : PactHandle) (directory : string)
                           (overwrite : bool).

End ffi.

(** The world as this module sees it: the calls made into the binding so
    far, oldest first. *)
Definition World := list ffi.Call.

(** What pact.py takes from outside: [json.dumps] on a [dict[str, Any]], the
    member table of [ffi.PactSpecification], [Path.cwd()], and the engine
    behind the binding.  [engine w c] is the integer the engine hands back
    for call [c] after the calls [w] (a handle reference, a port; ignored
    for functions returning [None]), or [None] when the binding raises. *)
Class Host := {
  PyDict : Type;
  json_dumps : PyDict → option string;
  PactSpecification_getitem : string → option ffi.PactSpecification;
  cwd : string;
  engine : World → ffi.Call → option Z;
}.

(** States that carry the world. *)
Class HasWorld (S : Type) := {
  world : S → World;
  set_world : World → S → S;
}.

#[export] Instance World_has_world : HasWorld World :=
  {| world := id; set_world := λ w _, w |}.

#[export] Instance obj_has_world {I} : HasWorld (I * World) :=
  {| world := snd; set_world := λ w s, (fst s, w) |}.

Section Binding.
Context {host : Host}.

(** Issue call [c]: it is recorded, and returns or raises as the engine
    decides. *)
Definition invoke {S} `{HasWorld S} (c : ffi.Call) : Py S Z :=
  λ s, let w := world s in
       (match engine w c with
        | Some r => Return r
        | None => Raise EngineError
        end, set_world (w ++ [c]) s).

(** [json.dumps(d)] *)
Definition dumps {S} (d : PyDict) : Py S string :=
  match json_dumps d with
  | Some s => mret s
  | None => raise JSONEncodeError
  end.

(** Run a computation on the world alone inside a method of an object. *)
Definition in_world {I A} (m : Py World A) : Py (I * World) A :=
  λ s, let '(r, w) := m (snd s) in (r, (fst s, w)).

End Binding.

(** ** class Interaction(abc.ABC) *)

(** The two abstract properties every concrete interaction provides. *)
Class Interaction (I : Type) := {
  _handle : I → ffi.InteractionHandle;
  _interaction_part : I → ffi.InteractionPart;
}.

Module Interaction.
Section Methods.
Context {host : Host} {I : Type} `{Interaction I}.

Definition self {A} (f : I → A) : Py (I * World) A := gets (λ s, f (fst s)).

Definition _parse_interaction_part (part : option string)
  : Py (I * World) ffi.InteractionPart :=
  if decide (part = Some "Request") then mret ffi.REQUEST
  else if decide (part = Some "Response") then mret ffi.RESPONSE
  else match part with
       | None => self _interaction_part
       | Some p => raise (ValueError (String.append "Invalid part: " p))
       end.

Definition given (state : string) (name value : option string)
    (parameters : option (DictOrStr PyDict)) : Py (I * World) unit :=
  match name, value, parameters with
  | Some name, Some value, None =>
      h ← self _handle;
      invoke (ffi.given_with_param h state name value);; mret tt
  | None, None, Some parameters =>
      match parameters with
      | a_dict d =>
          h ← self _handle;
          js ← dumps d;
          invoke (ffi.given_with_params h state js);; mret tt
      | a_str parameters =>
          h ← self _handle;
          invoke (ffi.given_with_params h state parameters);; mret tt
      end
  | None, None, None =>
      h ← self _handle;
      invoke (ffi.given h state);; mret tt
  | _, _, _ => raise (ValueError "Invalid combination of arguments.")
  end.

Definition with_body (body : option string) (content_type : string)
    (part : option string) : Py (I * World) unit :=
  h ← self _handle;
  p ← _parse_interaction_part part;
  invoke (ffi.with_body h p content_type body);; mret tt.

Definition with_binary_file (body : option (list Byte.byte))
    (content_type : string) (part : option string) : Py (I * World) unit :=
  h ← self _handle;
  p ← _parse_interaction_part part;
  invoke (ffi.with_binary_file h p content_type body);; mret tt.

Definition with_multipart_file (part_name : string) (path : option string)
    (content_type : string) (part : option string)
    (boundary : option string) : Py (I * World) unit :=
  h ← self _handle;
  p ← _parse_interaction_part part;
  invoke (ffi.with_multipart_file_v2 h p part_name path content_type boundary);;
  mret tt.

Definition test_name (name : string) : Py (I * World) unit :=
  h ← self _handle;
  invoke (ffi.interaction_test_name h name);; mret tt.

Definition with_plugin_contents (contents : DictOrStr PyDict)
    (content_type : string) (part : option string) : Py (I * World) unit :=
  contents ← match contents with
             | a_dict d => dumps d
             | a_str s => mret s
             end;
  h ← self _handle;
  p ← _parse_interaction_part part;
  invoke (ffi.interaction_contents h p content_type contents);; mret tt.

End Methods.
End Interaction.

(** ** class HttpInteraction(Interaction) *)

Module HttpInteraction.

Record t := {
  _description : string;
  __handle : ffi.InteractionHandle;
  __interaction_part : ffi.InteractionPart;
  _request_indices : gmap (ffi.InteractionPart * string) Z;
  _parameter_indices : gmap string Z;
}.

#[global] Instance interaction : Interaction t :=
  {| _handle := __handle; _interaction_part := __interaction_part |}.

Definition set___interaction_part (p : ffi.InteractionPart) (i : t) : t :=
  {| _description := _description i; __handle := __handle i;
     __interaction_part := p;
     _request_indices := _request_indices i;
     _parameter_indices := _parameter_indices i |}.

Definition set__request_indices (d : gmap (ffi.InteractionPart * string) Z)
    (i : t) : t :=
  {| _description := _description i; __handle := __handle i;
     __interaction_part := __interaction_part i;
     _request_indices := d;
     _parameter_indices := _parameter_indices i |}.

Definition set__parameter_indices (d : gmap string Z) (i : t) : t :=
  {| _description := _description i; __handle := __handle i;
     __interaction_part := __interaction_part i;
     _request_indices := _request_indices i;
     _parameter_indices := d |}.

Section Methods.
Context {host : Host}.

Definition __init__ (pact_handle : ffi.PactHandle) (description : string)
  : Py World t :=
  r ← invoke (ffi.new_interaction pact_handle description);
  mret {| _description := description;
          __handle := {| ffi.interaction_ref := r |};
          __interaction_part := ffi.REQUEST;
          _request_indices := ∅;
          _parameter_indices := ∅ |}.

(** [self._request_indices[k]] *)
Definition _request_indices_getitem (k : ffi.InteractionPart * string)
  : Py (t * World) Z :=
  λ s, let '(v, d) := dd_getitem k (_request_indices (fst s)) in
       (Return v, (set__request_indices d (fst s), snd s)).

(** [self._request_indices[k] = v] *)
Definition _request_indices_setitem (k : ffi.InteractionPart * string)
    (v : Z) : Py (t * World) unit :=
  modify (λ s, (set__request_indices (<[k := v]> (_request_indices (fst s)))
                                     (fst s), snd s)).

(** [self._parameter_indices[k]] *)
Definition _parameter_indices_getitem (k : string) : Py (t * World) Z :=
  λ s, let '(v, d) := dd_getitem k (_parameter_indices (fst s)) in
       (Return v, (set__parameter_indices d (fst s), snd s)).

(** [self._parameter_indices[k] = v] *)
Definition _parameter_indices_setitem (k : string) (v : Z)
  : Py (t * World) unit :=
  modify (λ s, (set__parameter_indices (<[k := v]> (_parameter_indices (fst s)))
                                       (fst s), snd s)).

Definition with_request (method path : string) : Py (t * World) unit :=
  h ← Interaction.self _handle;
  invoke (ffi.with_request h method path);; mret tt.

Definition with_header (name value : string) (part : option string)
  : Py (t * World) unit :=
  interaction_part ← Interaction._parse_interaction_part part;
  let name_lower := lower name in
  index ← _request_indices_getitem (interaction_part, name_lower);
  old ← _request_indices_getitem (interaction_part, name_lower);
  _request_indices_setitem (interaction_part, name_lower) (old + 1);;
  h ← Interaction.self _handle;
  invoke (ffi.with_header_v2 h interaction_part name index value);;
  mret tt.

Definition with_headers (headers : DictOrPairs) (part : option string)
  : Py (t * World) unit :=
  let headers := match headers with
                 | pairs_dict d => items d
                 | pairs_iter l => l
                 end in
  for_each headers (λ '(name, value), with_header name value part).

Definition set_header (name value : string) (part : option string)
  : Py (t * World) unit :=
  h ← Interaction.self _handle;
  p ← Interaction._parse_interaction_part part;
  invoke (ffi.set_header h p name value);; mret tt.

Definition set_headers (headers : DictOrPairs) (part : option string)
  : Py (t * World) unit :=
  let headers := match headers with
                 | pairs_dict d => items d
                 | pairs_iter l => l
                 end in
  for_each headers (λ '(name, value), set_header name value part).

Definition with_query_parameter (name value : string) : Py (t * World) unit :=
  index ← _parameter_indices_getitem name;
  old ← _parameter_indices_getitem name;
  _parameter_indices_setitem name (old + 1);;
  h ← Interaction.self _handle;
  invoke (ffi.with_query_parameter_v2 h name index value);;
  mret tt.

Definition with_query_parameters (parameters : DictOrPairs)
  : Py (t * World) unit :=
  let parameters := match parameters with
                    | pairs_dict d => items d
                    | pairs_iter l => l
                    end in
  for_each parameters (λ '(name, value), with_query_parameter name value).

Definition will_respond_with (status : Z) : Py (t * World) unit :=
  h ← Interaction.self _handle;
  invoke (ffi.response_status h status);;
  modify (λ s, (set___interaction_part ffi.RESPONSE (fst s), snd s)).

End Methods.
End HttpInteraction.

(** ** class AsyncMessageInteraction(Interaction) *)

Module AsyncMessageInteraction.

Record t := {
  _description : string;
  __handle : ffi.InteractionHandle;
}.

#[global] Instance interaction : Interaction t :=
  {| _handle := __handle; _interaction_part := λ _, ffi.REQUEST |}.

Section Methods.
Context {host : Host}.

Definition __init__ (pact_handle : ffi.PactHandle) (description : string)
  : Py World t :=
  r ← invoke (ffi.new_message_interaction pact_handle description);
  mret {| _description := description;
          __handle := {| ffi.interaction_ref := r |} |}.

End Methods.
End AsyncMessageInteraction.

(** ** class SyncMessageInteraction(Interaction) *)

Module SyncMessageInteraction.

Record t := {
  _description : string;
  __handle : ffi.InteractionHandle;
  __interaction_part : ffi.InteractionPart;
}.

#[global] Instance interaction : Interaction t :=
  {| _handle := __handle; _interaction_part := __interaction_part |}.

Section Methods.
Context {host : Host}.

Definition __init__ (pact_handle : ffi.PactHandle) (description : string)
  : Py World t :=
  r ← invoke (ffi.new_sync_message_interaction pact_handle description);
  mret {| _description := description;
          __handle := {| ffi.interaction_ref := r |};
          __interaction_part := ffi.REQUEST |}.

End Methods.
End SyncMessageInteraction.

(** [HttpInteraction | AsyncMessageInteraction | SyncMessageInteraction] *)
Inductive AnyInteraction :=
| Http (i : HttpInteraction.t)
| Async (i : AsyncMessageInteraction.t)
| Sync (i : SyncMessageInteraction.t).

(** ** class PactServer *)

Module PactServer.

Record t := {
  _host : string;
  _port : Z;
  _transport : string;
  _transport_config : option string;
  _pact_handle : ffi.PactHandle;
  _handle : option ffi.PactServerHandle;
}.

Definition set__handle (h : option ffi.PactServerHandle) (srv : t) : t :=
  {| _host := _host srv; _port := _port srv; _transport := _transport srv;
     _transport_config := _transport_config srv;
     _pact_handle := _pact_handle srv;
     _handle := h |}.

Definition __init__ (pact_handle : ffi.PactHandle) (host : string) (port : Z)
    (transport : string) (transport_config : option string) : t :=
  {| _host := host; _port := port; _transport := transport;
     _transport_config := transport_config;
     _pact_handle := pact_handle;
     _handle := None |}.

(** Truth value of [self._handle]: [None] is false, and a
    [PactServerHandle] is an object without [__bool__] or [__len__]. *)
Definition truthy (h : option ffi.PactServerHandle) : bool :=
  match h with
  | Some _ => true
  | None => false
  end.

Definition port (srv : t) : Z :=
  if truthy (_handle srv)
  then match _handle srv with
       | Some h => ffi.port h
       | None => 0          (* not reached: [None] is not truthy *)
       end
  else 0.

Definition host (srv : t) : string := _host srv.
Definition transport (srv : t) : string := _transport srv.

Section Methods.
Context {host : Host}.

Definition __enter__ : Py (t * World) unit :=
  srv ← gets fst;
  r ← invoke (ffi.create_mock_server_for_transport
                (_pact_handle srv) (_host srv) (_port srv)
                (_transport srv) (_transport_config srv));
  modify (λ s, (set__handle (Some {| ffi.port := r |}) (fst s), snd s)).

(** The three arguments describe the exception leaving the block, if any;
    the method does not look at them. *)
Definition __exit__ (_exc : option Exn) : Py (t * World) unit :=
  srv ← gets fst;
  if truthy (_handle srv)
  then modify (λ s, (set__handle None (fst s), snd s))
  else mret tt.

End Methods.
End PactServer.

(** [with mgr: body] for a context manager whose [__exit__] returns [None]:
    [__exit__] runs on both ways out of the block, and an exception raised by
    the block is raised again after it. *)
Definition with_block {S A} (enter : Py S unit) (exit : option Exn → Py S unit)
    (body : Py S A) : Py S A :=
  λ s, match enter s with
       | (Raise e, s1) => (Raise e, s1)
       | (Return _, s1) =>
           match body s1 with
           | (Return a, s2) =>
               match exit None s2 with
               | (Return _, s3) => (Return a, s3)
               | (Raise e, s3) => (Raise e, s3)
               end
           | (Raise e, s2) =>
               match exit (Some e) s2 with
               | (Return _, s3) => (Raise e, s3)
               | (Raise e', s3) => (Raise e', s3)
               end
           end
       end.

(** ** class Pact *)

Module Pact.

(** [_interactions] is a [Set[Interaction]]; its members would be objects
    told apart by identity, so it is kept as the list of the objects put in. *)
Record t := {
  _consumer : string;
  _provider : string;
  _interactions : list AnyInteraction;
  _handle : ffi.PactHandle;
}.

Section Methods.
Context {host : Host}.

Definition __init__ (consumer provider : string) : Py World t :=
  if decide (consumer = "") then raise (ValueError "Consumer name cannot be empty.")
  else if decide (provider = "") then raise (ValueError "Provider name cannot be empty.")
  else
    r ← invoke (ffi.new_pact consumer provider);
    mret {| _consumer := consumer;
            _provider := provider;
            _interactions := [];
            _handle := {| ffi.pact_ref := r |} |}.

Definition consumer (p : t) : string := _consumer p.
Definition provider (p : t) : string := _provider p.

(** [pact.v3.ffi.PactSpecification[name]] *)
Definition PactSpecification_lookup {S} (name : string)
  : Py S ffi.PactSpecification :=
  match PactSpecification_getitem name with
  | Some v => mret v
  | None => raise (KeyError name)
  end.

(** The name looked up for a version string. *)
Definition member_name (version : string) : string :=
  let version := replace_dot (upper version) in
  if startswith_V version then version else String.append "V" version.

Definition with_specification (version : string + ffi.PactSpecification)
  : Py (t * World) unit :=
  version ← match version with
            | inl version => PactSpecification_lookup (member_name version)
            | inr version => mret version
            end;
  h ← gets (λ s, _handle (fst s));
  invoke (ffi.with_specification h version);; mret tt.

Definition using_plugin (name : string) (version : option string)
  : Py (t * World) unit :=
  h ← gets (λ s, _handle (fst s));
  invoke (ffi.using_plugin h name version);; mret tt.

Definition with_metadata (namespace : string) (metadata : StrDict)
  : Py (t * World) unit :=
  for_each (items metadata) (λ '(k, v),
    h ← gets (λ s, _handle (fst s));
    invoke (ffi.with_pact_metadata h namespace k v);; mret tt).

Definition upon_receiving (description interaction : string)
  : Py (t * World) AnyInteraction :=
  h ← gets (λ s, _handle (fst s));
  if decide (interaction = "HTTP")
  then i ← in_world (HttpInteraction.__init__ h description); mret (Http i)
  else if decide (interaction = "Async")
  then i ← in_world (AsyncMessageInteraction.__init__ h description); mret (Async i)
  else if decide (interaction = "Sync")
  then i ← in_world (SyncMessageInteraction.__init__ h description); mret (Sync i)
  else raise (ValueError (String.append "Invalid interaction type: " interaction)).

Definition serve (addr : string) (port : Z) (transport : string)
    (transport_config : option string) : Py (t * World) PactServer.t :=
  h ← gets (λ s, _handle (fst s));
  mret (PactServer.__init__ h addr port transport transport_config).

(** The iterators the binding hands back are references, like handles. *)
Definition messages : Py (t * World) Z :=
  h ← gets (λ s, _handle (fst s));
  invoke (ffi.pact_handle_get_message_iter h).

Definition interactions (kind : string) : Py (t * World) Z :=
  h ← gets (λ s, _handle (fst s));
  if decide (kind = "HTTP") then invoke (ffi.pact_handle_get_sync_http_iter h)
  else if decide (kind = "Sync") then invoke (ffi.pact_handle_get_sync_message_iter h)
  else if decide (kind = "Async") then invoke (ffi.pact_handle_get_message_iter h)
  else raise (ValueError (String.append "Unknown interaction type: " kind)).

Definition write_file (directory : option string) (overwrite : bool)
  : Py (t * World) unit :=
  let directory := match directory with
                   | None => cwd
                   | Some d => d
                   end in
  h ← gets (λ s, _handle (fst s));
  invoke (ffi.pact_handle_write_file h directory overwrite);; mret tt.

End Methods.
End Pact.

(** ** Clients: sequences of method calls on one object *)

(** A client that calls one method after another on the same object and
    carries on after an exception; the object and the world are as each call
    left them. *)
Definition run_calls {S C} (do : C → Py S unit) (cs : list C) (s : S) : S :=
  foldl (λ s c, final (do c s)) s cs.

(** The calls issued while the world grew from [w] to [w']. *)
Definition issued_since (w w' : World) : World := drop (length w) w'.

(** The calls a computation issues from state [s]. *)
Definition issued {S A} `{HasWorld S} (m : Py S A) (s : S) : World :=
  issued_since (world s) (world (final (m s))).

Section Clients.
Context {host : Host}.

(** A call of a method of the base class. *)
Inductive InteractionCall :=
  | call_given (state : string) (name value : option string)
               (parameters : option (DictOrStr PyDict))
  | call_with_body (body : option string) (content_type : string)
                   (part : option string)
  | call_with_binary_file (body : option (list Byte.byte))
                          (content_type : string) (part : option string)
  | call_with_multipart_file (part_name : string) (path : option string)
                             (content_type : string) (part : option string)
                             (boundary : option string)
  | call_test_name (name : string)
  | call_with_plugin_contents (contents : DictOrStr PyDict)
                              (content_type : string) (part : option string).

Definition do_call {I} `{Interaction I} (c : InteractionCall)
  : Py (I * World) unit :=
  match c with
  | call_given state name value parameters =>
      Interaction.given state name value parameters
  | call_with_body body content_type part =>
      Interaction.with_body body content_type part
  | call_with_binary_file body content_type part =>
      Interaction.with_binary_file body content_type part
  | call_with_multipart_file part_name path content_type part boundary =>
      Interaction.with_multipart_file part_name path content_type part boundary
  | call_test_name name => Interaction.test_name name
  | call_with_plugin_contents contents content_type part =>
      Interaction.with_plugin_contents contents content_type part
  end.

(** A call of a method of [HttpInteraction], inherited or its own. *)
Inductive HttpCall :=
  | inherited (c : InteractionCall)
  | call_with_request (method path : string)
  | call_with_header (name value : string) (part : option string)
  | call_with_headers (headers : DictOrPairs) (part : option string)
  | call_set_header (name value : string) (part : option string)
  | call_set_headers (headers : DictOrPairs) (part : option string)
  | call_with_query_parameter (name value : string)
  | call_with_query_parameters (parameters : DictOrPairs)
  | call_will_respond_with (status : Z).

Definition do_http_call (c : HttpCall) : Py (HttpInteraction.t * World) unit :=
  match c with
  | inherited c => do_call c
  | call_with_request method path => HttpInteraction.with_request method path
  | call_with_header name value part => HttpInteraction.with_header name value part
  | call_with_headers headers part => HttpInteraction.with_headers headers part
  | call_set_header name value part => HttpInteraction.set_header name value part
  | call_set_headers headers part => HttpInteraction.set_headers headers part
  | call_with_query_parameter name value =>
      HttpInteraction.with_query_parameter name value
  | call_with_query_parameters parameters =>
      HttpInteraction.with_query_parameters parameters
  | call_will_respond_with status => HttpInteraction.will_respond_with status
  end.



(** A call of a method of [Pact]; results are dropped. *)
Inductive PactCall :=
  | call_with_specification (version : string + ffi.PactSpecification)
  | call_using_plugin (name : string) (version : option string)
  | call_with_metadata (namespace : string) (metadata : StrDict)
  | call_upon_receiving (description interaction : string)
  | call_serve (addr : string) (port : Z) (transport : string)
               (transport_config : option string)
  | call_messages
  | call_interactions (kind : string)
  | call_write_file (directory : option string) (overwrite : bool).

Definition do_pact_call (c : PactCall) : Py (Pact.t * World) unit :=
  match c with
  | call_with_specification version => Pact.with_specification version
  | call_using_plugin name version => Pact.using_plugin name version
  | call_with_metadata namespace metadata => Pact.with_metadata namespace metadata
  | call_upon_receiving description interaction =>
      Pact.upon_receiving description interaction;; mret tt
  | call_serve addr port transport transport_config =>
      Pact.serve addr port transport transport_config;; mret tt
  | call_messages => Pact.messages;; mret tt
  | call_interactions kind => Pact.interactions kind;; mret tt
  | call_write_file directory overwrite => Pact.write_file directory overwrite
  end.

End Clients.


(** The indices recorded, in order, by the [with_header_v2] calls in [w] for
    part [p] and a header whose lowercased name is [n]. *)
Fixpoint header_indices (p : ffi.InteractionPart) (n : string) (w : World)
  : list Z :=
  match w with
  | [] => []
  | ffi.with_header_v2 _ p' name index _ :: rest =>
      if decide (p' = p ∧ lower name = n)
      then index :: header_indices p n rest
      else header_indices p n rest
  | _ :: rest => header_indices p n rest
  end.

(** The counter kept for a header, read without touching the dictionary. *)
Definition header_counter (i : HttpInteraction.t) (p : ffi.InteractionPart)
    (n : string) : Z :=
  default 0 (HttpInteraction._request_indices i !! (p, n)).



(** ** Auxiliary notions used in the statements *)

(** The part [_parse_interaction_part] gives for the argument [part] while
    the current part is [cur]; [None] when it raises. *)
Definition resolved_part (cur : ffi.InteractionPart) (part : option string)
  : option ffi.InteractionPart :=
  match part with
  | None => Some cur
  | Some p =>
      if decide (p = "Request") then Some ffi.REQUEST
      else if decide (p = "Response") then Some ffi.RESPONSE
      else None
  end.

(** How a binding function returning [None] ends for call [c] after [w]. *)
Definition engine_outcome {host : Host} (w : World) (c : ffi.Call) : Result unit :=
  match engine w c with
  | Some _ => Return tt
  | None => Raise EngineError
  end.

(** An example environment: a dictionary is given by its JSON text, the
    specification enumeration has the members [V1], [V1_1], [V2], [V3] and
    [V4], and the engine accepts every call, handing back the number of
    calls made before it. *)
Definition example_members : list (string * ffi.PactSpecification) :=
  [("V1", ffi.Member 1); ("V1_1", ffi.Member 2); ("V2", ffi.Member 3);
   ("V3", ffi.Member 4); ("V4", ffi.Member 5)].

Definition example_host : Host := {|
  PyDict := string;
  json_dumps := Some;
  PactSpecification_getitem :=
    λ name, snd <$> List.find (λ m, String.eqb (fst m) name) example_members;
  cwd := "/work";
  engine := λ w _, Some (Z.of_nat (length w));
|}.

(** The same environment with an engine that refuses every call. *)
Definition refusing_host : Host := {|
  PyDict := string;
  json_dumps := Some;
  PactSpecification_getitem :=
    λ name, snd <$> List.find (λ m, String.eqb (fst m) name) example_members;
  cwd := "/work";
  engine := λ _ _, None;
|}.

(** A chained expression [obj.m1(...).m2(...)...]: each method is called on
    what the one before returned, so the chain ends at the first exception. *)
Fixpoint chain {S C} (do : C → Py S unit) (cs : list C) : Py S unit :=
  match cs with
  | [] => mret tt
  | c :: rest => λ s, match do c s with
                      | (Return _, s') => chain do rest s'
                      | (Raise e, s') => (Raise e, s')
                      end
  end.

(** The pairs a [dict] or an iterable of pairs yields, in iteration order. *)
Definition pairs_of (headers : DictOrPairs) : list (string * string) :=
  match headers with
  | pairs_dict d => items d
  | pairs_iter l => l
  end.

(** [c, c+1, ..., c+k-1] and [0, 1, ..., k-1] *)
Definition upfrom (c : Z) (k : nat) : list Z := (λ j, c + Z.of_nat j) <$> seq 0 k.
Definition upto (k : nat) : list Z := upfrom 0 k.

(** The calls [new] carry on the header counters of [i] and leave them as
    they are in [i']: for every part and lowercased name, the indices
    recorded in [new] are the next ones in order. *)
Definition counts_on (i : HttpInteraction.t) (new : World)
    (i' : HttpInteraction.t) : Prop :=
  ∀ p n, ∃ k : nat,
    header_indices p n new = upfrom (header_counter i p n) k
    ∧ header_counter i' p n = header_counter i p n + Z.of_nat k.

(** One step of a client of an [HttpInteraction]: the world only grows, the
    handle stays, the header counters are carried on, and a current part
    [RESPONSE] stays [RESPONSE]. *)
Definition http_step (s s' : HttpInteraction.t * World) : Prop :=
  ∃ new, snd s' = snd s ++ new
    ∧ counts_on (fst s) new (fst s')
    ∧ HttpInteraction.__handle (fst s') = HttpInteraction.__handle (fst s)
    ∧ (HttpInteraction.__interaction_part (fst s) = ffi.RESPONSE →
       HttpInteraction.__interaction_part (fst s') = ffi.RESPONSE).

(** The three argument shapes of [given], each of [name], [value] and
    [parameters] being [None] or not. *)
Definition state_only {D} (name value : option string) (parameters : option D) : Prop :=
  name = None ∧ value = None ∧ parameters = None.
Definition state_name_value {D} (name value : option string) (parameters : option D) : Prop :=
  name ≠ None ∧ value ≠ None ∧ parameters = None.
Definition state_parameters {D} (name value : option string) (parameters : option D) : Prop :=
  name = None ∧ value = None ∧ parameters ≠ None.

Definition is_ValueError {A} (r : Result A) : Prop := ∃ msg, r = Raise (ValueError msg).

(** ** Provider states inside the engine *)

Module ProviderStates.
Section Engine.

(** The JSON reader of the engine: the members of the object a string
    holds, [None] when the string holds no JSON object, as when it is not
    valid JSON at all. *)
Variable json_object : string → option StrDict.

(** The provider states of one interaction, in the order of their first
    declaration, each with its merged parameters. *)
Definition States := list (string * gmap string string).

(** Later values for the same key win. *)
Definition set_all (params : StrDict) (old : gmap string string)
  : gmap string string :=
  foldl (λ m kv, <[fst kv := snd kv]> m) old params.

(** Modelled from the spec: the engine's side of [given], whose code is not
    part of pact.py.  Repeated declarations of one state merge their
    parameters into one entry. *)
Fixpoint merge (state : string) (params : StrDict) (ps : States) : States :=
  match ps with
  | [] => [(state, set_all params ∅)]
  | (st, old) :: rest =>
      if decide (st = state)
      then (st, set_all params old) :: rest
      else (st, old) :: merge state params rest
  end.

(** Modelled from the spec: what the engine does with one call of the
    [given] family for interaction [h]; [None] would be a rejection.  A
    name and a value register one parameter; a parameter string holding an
    object registers its members; a parameter string that is not valid JSON
    is registered as it is under the key [value] (the docstring of [given]
    says the same of every string that holds no JSON object). *)
Definition register (h : ffi.InteractionHandle) (c : ffi.Call) (ps : States)
  : option States :=
  match c with
  | ffi.given h' state =>
      Some (if decide (h' = h) then merge state [] ps else ps)
  | ffi.given_with_param h' state name value =>
      Some (if decide (h' = h) then merge state [(name, value)] ps else ps)
  | ffi.given_with_params h' state params =>
      let members := match json_object params with
                     | Some members => members
                     | None => [("value", params)]
                     end in
      Some (if decide (h' = h) then merge state members ps else ps)
  | _ => Some ps
  end.

(** The provider states of interaction [h] after the calls [w]; [None] once
    a call was rejected. *)
Definition provider_states (h : ffi.InteractionHandle) (w : World)
  : option States :=
  foldl (λ ps c, ps ≫= register h c) (Some []) w.

End Engine.

(** An example reader: it knows the empty object and nothing else. *)
Definition only_empty_object (s : string) : option StrDict :=
  if decide (s = "{}") then Some [] else None.

End ProviderStates.

(** ** Statements compared with the code *)

(** [set_header] counted like [with_header]: after the call, the counter
    kept for the resolved part and the lowercased name is one more than
    before. *)
Definition set_header_counts {host : Host} (name value : string)
    (part : option string) (s : HttpInteraction.t * World) : Prop :=
  ∀ p, resolved_part (HttpInteraction.__interaction_part (fst s)) part = Some p →
    header_counter (fst (final (HttpInteraction.set_header name value part s)))
                   p (lower name)
    = header_counter (fst s) p (lower name) + 1.

(** An interaction as [upon_receiving] makes it with the example engine as
    the first call after the pact was created. *)
Definition example_pact_handle : ffi.PactHandle := {| ffi.pact_ref := 0 |}.

Definition example_http : HttpInteraction.t * World :=
  ({| HttpInteraction._description := "a request";
      HttpInteraction.__handle := {| ffi.interaction_ref := 1 |};
      HttpInteraction.__interaction_part := ffi.REQUEST;
      HttpInteraction._request_indices := ∅;
      HttpInteraction._parameter_indices := ∅ |},
   [ffi.new_pact "consumer" "provider";
    ffi.new_interaction example_pact_handle "a request"]).

Definition example_sync : SyncMessageInteraction.t * World :=
  ({| SyncMessageInteraction._description := "a request";
      SyncMessageInteraction.__handle := {| ffi.interaction_ref := 1 |};
      SyncMessageInteraction.__interaction_part := ffi.REQUEST |},
   [ffi.new_pact "consumer" "provider";
    ffi.new_sync_message_interaction example_pact_handle "a request"]).


Definition named_part {host : Host} (c : InteractionCall) : option string :=
  match c with
  | call_with_body _ _ part
  | call_with_binary_file _ _ part
  | call_with_multipart_file _ _ _ part _
  | call_with_plugin_contents _ _ part => part
  | _ => None
  end.



(** ** Further observations of the calls made *)

(** The interaction a call into the binding is made for. *)
Definition call_handle (c : ffi.Call) : option ffi.InteractionHandle :=
  match c with
  | ffi.given h _
  | ffi.given_with_param h _ _ _
  | ffi.given_with_params h _ _
  | ffi.with_body h _ _ _
  | ffi.with_binary_file h _ _ _
  | ffi.with_multipart_file_v2 h _ _ _ _ _
  | ffi.interaction_test_name h _
  | ffi.interaction_contents h _ _ _
  | ffi.with_request h _ _
  | ffi.with_header_v2 h _ _ _ _
  | ffi.set_header h _ _ _
  | ffi.with_query_parameter_v2 h _ _ _
  | ffi.response_status h _ => Some h
  | _ => None
  end.

(** The pact a call into the binding is made for. *)
Definition call_pact (c : ffi.Call) : option ffi.PactHandle :=
  match c with
  | ffi.new_interaction p _
  | ffi.new_message_interaction p _
  | ffi.new_sync_message_interaction p _
  | ffi.with_specification p _
  | ffi.using_plugin p _ _
  | ffi.with_pact_metadata p _ _ _
  | ffi.create_mock_server_for_transport p _ _ _ _
  | ffi.pact_handle_get_message_iter p
  | ffi.pact_handle_get_sync_http_iter p
  | ffi.pact_handle_get_sync_message_iter p
  | ffi.pact_handle_write_file p _ _ => Some p
  | _ => None
  end.

(** A call that carries no repetition index. *)
Definition plain (c : ffi.Call) : bool :=
  match c with
  | ffi.with_header_v2 _ _ _ _ _
  | ffi.with_query_parameter_v2 _ _ _ _ => false
  | _ => true
  end.

(** The indices recorded, in order, by the [with_query_parameter_v2] calls
    in [w] for the parameter named [n]. *)
Fixpoint query_indices (n : string) (w : World) : list Z :=
  match w with
  | [] => []
  | ffi.with_query_parameter_v2 _ name index _ :: rest =>
      if decide (name = n)
      then index :: query_indices n rest
      else query_indices n rest
  | _ :: rest => query_indices n rest
  end.

(** The counter kept for a query parameter, read without touching the
    dictionary. *)
Definition query_counter (i : HttpInteraction.t) (n : string) : Z :=
  default 0 (HttpInteraction._parameter_indices i !! n).

(** The calls from one state to another carry on the query counters: for
    every name, the indices recorded are the next ones in order. *)
Definition query_counts (s s' : HttpInteraction.t * World) : Prop :=
  ∃ new, snd s' = snd s ++ new
    ∧ ∀ n, ∃ k : nat,
        query_indices n new = upfrom (query_counter (fst s) n) k
        ∧ query_counter (fst s') n = query_counter (fst s) n + Z.of_nat k.

(** The smallest steps a method of an [HttpInteraction] is made of: a call
    without index for this interaction, a header call that takes and bumps
    the counter of its part and lowercased name, a query parameter call that
    takes and bumps the counter of its name, and the change to the response
    part. *)
Inductive http_atom
  : HttpInteraction.t * World → HttpInteraction.t * World → Prop :=
| atom_plain i w k :
    plain k = true →
    call_handle k = Some (HttpInteraction.__handle i) →
    http_atom (i, w) (i, w ++ [k])
| atom_header i w p name value :
    http_atom (i, w)
      (HttpInteraction.set__request_indices
         (<[(p, lower name) := header_counter i p (lower name) + 1]>
            (HttpInteraction._request_indices i)) i,
       w ++ [ffi.with_header_v2 (HttpInteraction.__handle i) p name
               (header_counter i p (lower name)) value])
| atom_query i w name value :
    http_atom (i, w)
      (HttpInteraction.set__parameter_indices
         (<[name := query_counter i name + 1]>
            (HttpInteraction._parameter_indices i)) i,
       w ++ [ffi.with_query_parameter_v2 (HttpInteraction.__handle i) name
               (query_counter i name) value])
| atom_respond i w status :
    http_atom (i, w)
      (HttpInteraction.set___interaction_part ffi.RESPONSE i,
       w ++ [ffi.response_status (HttpInteraction.__handle i) status]).

(** The part argument of a call of an [HttpInteraction] that takes one. *)
Definition part_argument {host : Host} (c : HttpCall) : option string :=
  match c with
  | inherited c => named_part c
  | call_with_header _ _ part
  | call_with_headers _ part
  | call_set_header _ _ part
  | call_set_headers _ part => part
  | _ => None
  end.

(** An [AsyncMessageInteraction] as [upon_receiving] makes it with the
    example engine. *)
Definition example_async : AsyncMessageInteraction.t * World :=
  ({| AsyncMessageInteraction._description := "a message";
      AsyncMessageInteraction.__handle := {| ffi.interaction_ref := 1 |} |},
   [ffi.new_pact "consumer" "provider";
    ffi.new_message_interaction example_pact_handle "a message"]).

(** A pact as [Pact("consumer", "provider")] makes it with the example
    engine as the first call. *)
Definition example_pact : Pact.t * World :=
  ({| Pact._consumer := "consumer"; Pact._provider := "provider";
      Pact._interactions := []; Pact._handle := example_pact_handle |},
   [ffi.new_pact "consumer" "provider"]).

(** The calls from one state of an [HttpInteraction] to another are all for
    its handle, which stays. *)
Definition own_calls (s s' : HttpInteraction.t * World) : Prop :=
  ∃ new, snd s' = snd s ++ new
    ∧ Forall (λ k, call_handle k = Some (HttpInteraction.__handle (fst s))) new
    ∧ HttpInteraction.__handle (fst s') = HttpInteraction.__handle (fst s)
    ∧ HttpInteraction._description (fst s') = HttpInteraction._description (fst s).

(** The calls from one state of a [Pact] to another are all for its handle,
    and the pact is as it was. *)
Definition pact_own_calls (s s' : Pact.t * World) : Prop :=
  ∃ new, snd s' = snd s ++ new
    ∧ Forall (λ k, call_pact k = Some (Pact._handle (fst s))) new
    ∧ fst s' = fst s.


(** Entering and leaving a [PactServer], as a [with] statement does or by
    hand. *)
Inductive ServerCall :=
| call_enter
| call_exit (exc : option Exn).

Definition do_server_call {host : Host} (c : ServerCall)
  : Py (PactServer.t * World) unit :=
  match c with
  | call_enter => PactServer.__enter__
  | call_exit exc => PactServer.__exit__ exc
  end.

Definition is_enter (c : ServerCall) : bool :=
  match c with
  | call_enter => true
  | call_exit _ => false
  end.

(** The call [__enter__] makes for a server. *)
Definition create_call (srv : PactServer.t) : ffi.Call :=
  ffi.create_mock_server_for_transport
    (PactServer._pact_handle srv) (PactServer._host srv) (PactServer._port srv)
    (PactServer._transport srv) (PactServer._transport_config srv).

(** How often a sequence of calls enters the server. *)
Definition enters (cs : list ServerCall) : nat :=
  length (List.filter is_enter cs).

(** * Properties *)

(** ** The monad and the binding *)

Lemma bind_run {S A B} (m : Py S A) (f : A → Py S B) (s : S) :
  (m ≫= f) s = match m s with
               | (Return a, s') => f a s'
               | (Raise e, s') => (Raise e, s')
               end.
Proof. reflexivity. Qed.

Lemma issued_since_app (w new : World) : issued_since w (w ++ new) = new.
Proof. unfold issued_since. by rewrite drop_app_length. Qed.

Lemma issued_since_refl (w : World) : issued_since w w = [].
Proof. unfold issued_since. by rewrite drop_all. Qed.

Section InteractionFacts.
Context {host : Host} {I : Type} `{Interaction I}.

Lemma parse_interaction_part_run (part : option string) (i : I) (w : World) :
  Interaction._parse_interaction_part part (i, w) =
  (match resolved_part (_interaction_part i) part with
   | Some p => Return p
   | None => Raise (ValueError (String.append "Invalid part: " (default "" part)))
   end, (i, w)).
Proof.
  unfold Interaction._parse_interaction_part, resolved_part.
  destruct part as [p|].
  - repeat case_decide; simplify_eq; try done.
  - repeat case_decide; simplify_eq; done.
Qed.

End InteractionFacts.

Ltac py_run :=
  repeat first [ rewrite bind_run
               | rewrite parse_interaction_part_run
               | progress simpl ].

Section InteractionRuns.
Context {host : Host} {I : Type} `{Interaction I}.

Lemma given_with_param_run state name value (i : I) (w : World) :
  Interaction.given state (Some name) (Some value) None (i, w) =
  let c := ffi.given_with_param (_handle i) state name value in
  (engine_outcome w c, (i, w ++ [c])).
Proof. unfold Interaction.given, engine_outcome. py_run. by destruct (engine _ _). Qed.

Lemma given_with_str_run state parameters (i : I) (w : World) :
  Interaction.given state None None (Some (a_str parameters)) (i, w) =
  let c := ffi.given_with_params (_handle i) state parameters in
  (engine_outcome w c, (i, w ++ [c])).
Proof. unfold Interaction.given, engine_outcome. py_run. by destruct (engine _ _). Qed.

Lemma given_with_dict_run state d (i : I) (w : World) :
  Interaction.given state None None (Some (a_dict d)) (i, w) =
  match json_dumps d with
  | Some js =>
      let c := ffi.given_with_params (_handle i) state js in
      (engine_outcome w c, (i, w ++ [c]))
  | None => (Raise JSONEncodeError, (i, w))
  end.
Proof.
  unfold Interaction.given, engine_outcome, dumps. py_run.
  destruct (json_dumps d); [|done]. py_run. by destruct (engine _ _).
Qed.

Lemma given_state_only_run state (i : I) (w : World) :
  Interaction.given state None None None (i, w) =
  let c := ffi.given (_handle i) state in
  (engine_outcome w c, (i, w ++ [c])).
Proof. unfold Interaction.given, engine_outcome. py_run. by destruct (engine _ _). Qed.

Lemma with_body_run body content_type part (i : I) (w : World) :
  Interaction.with_body body content_type part (i, w) =
  match resolved_part (_interaction_part i) part with
  | Some p =>
      let c := ffi.with_body (_handle i) p content_type body in
      (engine_outcome w c, (i, w ++ [c]))
  | None =>
      (Raise (ValueError (String.append "Invalid part: " (default "" part))), (i, w))
  end.
Proof.
  unfold Interaction.with_body, engine_outcome. py_run.
  destruct (resolved_part _ _); [|done]. py_run. by destruct (engine _ _).
Qed.

Lemma with_binary_file_run body content_type part (i : I) (w : World) :
  Interaction.with_binary_file body content_type part (i, w) =
  match resolved_part (_interaction_part i) part with
  | Some p =>
      let c := ffi.with_binary_file (_handle i) p content_type body in
      (engine_outcome w c, (i, w ++ [c]))
  | None =>
      (Raise (ValueError (String.append "Invalid part: " (default "" part))), (i, w))
  end.
Proof.
  unfold Interaction.with_binary_file, engine_outcome. py_run.
  destruct (resolved_part _ _); [|done]. py_run. by destruct (engine _ _).
Qed.

Lemma with_multipart_file_run part_name path content_type part boundary
    (i : I) (w : World) :
  Interaction.with_multipart_file part_name path content_type part boundary (i, w) =
  match resolved_part (_interaction_part i) part with
  | Some p =>
      let c := ffi.with_multipart_file_v2 (_handle i) p part_name path
                                          content_type boundary in
      (engine_outcome w c, (i, w ++ [c]))
  | None =>
      (Raise (ValueError (String.append "Invalid part: " (default "" part))), (i, w))
  end.
Proof.
  unfold Interaction.with_multipart_file, engine_outcome. py_run.
  destruct (resolved_part _ _); [|done]. py_run. by destruct (engine _ _).
Qed.

Lemma test_name_run name (i : I) (w : World) :
  Interaction.test_name name (i, w) =
  let c := ffi.interaction_test_name (_handle i) name in
  (engine_outcome w c, (i, w ++ [c])).
Proof. unfold Interaction.test_name, engine_outcome. py_run. by destruct (engine _ _). Qed.

Lemma with_plugin_contents_run contents content_type part (i : I) (w : World) :
  Interaction.with_plugin_contents contents content_type part (i, w) =
  match (match contents with
         | a_dict d => json_dumps d
         | a_str s => Some s
         end) with
  | None => (Raise JSONEncodeError, (i, w))
  | Some js =>
      match resolved_part (_interaction_part i) part with
      | Some p =>
          let c := ffi.interaction_contents (_handle i) p content_type js in
          (engine_outcome w c, (i, w ++ [c]))
      | None =>
          (Raise (ValueError (String.append "Invalid part: " (default "" part))), (i, w))
      end
  end.
Proof.
  unfold Interaction.with_plugin_contents, engine_outcome, dumps.
  destruct contents as [d|s]; py_run.
  - destruct (json_dumps d); [|done]. py_run.
    destruct (resolved_part _ _); [|done]. py_run. by destruct (engine _ _).
  - destruct (resolved_part _ _); [|done]. py_run. by destruct (engine _ _).
Qed.

End InteractionRuns.

Section HttpRuns.
Context {host : Host}.
Import HttpInteraction.

Lemma with_request_run method path (i : t) (w : World) :
  with_request method path (i, w) =
  let c := ffi.with_request (__handle i) method path in
  (engine_outcome w c, (i, w ++ [c])).
Proof. unfold with_request, engine_outcome. py_run. by destruct (engine _ _). Qed.

Lemma set_header_run name value part (i : t) (w : World) :
  set_header name value part (i, w) =
  match resolved_part (__interaction_part i) part with
  | Some p =>
      let c := ffi.set_header (__handle i) p name value in
      (engine_outcome w c, (i, w ++ [c]))
  | None =>
      (Raise (ValueError (String.append "Invalid part: " (default "" part))), (i, w))
  end.
Proof.
  unfold set_header, engine_outcome. py_run.
  destruct (resolved_part _ _); [|done]. py_run. by destruct (engine _ _).
Qed.

Lemma with_header_run name value part (i : t) (w : World) :
  with_header name value part (i, w) =
  match resolved_part (__interaction_part i) part with
  | Some p =>
      let index := header_counter i p (lower name) in
      let c := ffi.with_header_v2 (__handle i) p name index value in
      (engine_outcome w c,
       (set__request_indices
          (<[(p, lower name) := index + 1]> (_request_indices i)) i,
        w ++ [c]))
  | None =>
      (Raise (ValueError (String.append "Invalid part: " (default "" part))), (i, w))
  end.
Proof.
  unfold with_header, engine_outcome, header_counter. py_run.
  destruct (resolved_part _ _) as [p|]; [|done].
  unfold _request_indices_getitem, _request_indices_setitem, dd_getitem.
  py_run.
  destruct (_request_indices i !! (p, lower name)) as [v|] eqn:Hv; py_run.
  - rewrite Hv. py_run. by destruct (engine _ _).
  - rewrite lookup_insert_eq. py_run. rewrite insert_insert_eq.
    by destruct (engine _ _).
Qed.

Lemma with_query_parameter_run name value (i : t) (w : World) :
  with_query_parameter name value (i, w) =
  let index := default 0 (_parameter_indices i !! name) in
  let c := ffi.with_query_parameter_v2 (__handle i) name index value in
  (engine_outcome w c,
   (set__parameter_indices (<[name := index + 1]> (_parameter_indices i)) i,
    w ++ [c])).
Proof.
  unfold with_query_parameter, engine_outcome.
  unfold _parameter_indices_getitem, _parameter_indices_setitem, dd_getitem.
  py_run.
  destruct (_parameter_indices i !! name) as [v|] eqn:Hv; py_run.
  - rewrite Hv. py_run. by destruct (engine _ _).
  - rewrite lookup_insert_eq. py_run. rewrite insert_insert_eq.
    by destruct (engine _ _).
Qed.

Lemma will_respond_with_run status (i : t) (w : World) :
  will_respond_with status (i, w) =
  let c := ffi.response_status (__handle i) status in
  match engine w c with
  | Some _ => (Return tt, (set___interaction_part ffi.RESPONSE i, w ++ [c]))
  | None => (Raise EngineError, (i, w ++ [c]))
  end.
Proof. unfold will_respond_with. py_run. by destruct (engine _ _). Qed.

End HttpRuns.

(** ** Clients *)

Lemma run_calls_app {S C} (do : C → Py S unit) (cs1 cs2 : list C) (s : S) :
  run_calls do (cs1 ++ cs2) s = run_calls do cs2 (run_calls do cs1 s).
Proof. unfold run_calls. apply foldl_app. Qed.

Lemma run_calls_rel {S C} (do : C → Py S unit) (R : relation S) (Q : C → Prop)
    `{!Reflexive R, !Transitive R} :
  (∀ c s, Q c → R s (final (do c s))) →
  ∀ cs s, Forall Q cs → R s (run_calls do cs s).
Proof.
  intros step cs. induction cs as [|c cs IH]; intros s HQ; simpl.
  - reflexivity.
  - inversion HQ; subst. etrans; [by apply step|]. by apply IH.
Qed.

Lemma for_each_rel {S A} (body : A → Py S unit) (R : relation S)
    `{!Reflexive R, !Transitive R} :
  (∀ x s, R s (final (body x s))) →
  ∀ xs s, R s (final (for_each xs body s)).
Proof.
  intros step xs. induction xs as [|x xs IH]; intros s; simpl.
  - reflexivity.
  - rewrite bind_run. specialize (step x s).
    destruct (body x s) as [[[]|e] s']; simpl in *; [|done].
    etrans; [done|]. apply IH.
Qed.

Lemma header_indices_app p n (w1 w2 : World) :
  header_indices p n (w1 ++ w2) = header_indices p n w1 ++ header_indices p n w2.
Proof.
  induction w1 as [|c w1 IH]; [done|].
  destruct c; simpl; try done. case_decide; simpl; by rewrite IH.
Qed.

Lemma upfrom_0 c : upfrom c 0 = [].
Proof. done. Qed.

Lemma fmap_seq_from {A} (f : nat → A) (a k : nat) :
  f <$> seq a k = (λ j, f (a + j)%nat) <$> seq 0 k.
Proof.
  revert f a. induction k as [|k IH]; intros f a; [done|].
  change (seq a (S k)) with (a :: seq (S a) k).
  change (seq 0 (S k)) with (0%nat :: seq 1 k).
  rewrite !fmap_cons, Nat.add_0_r. f_equal.
  rewrite (IH f (S a)), (IH (λ j, f (a + j)%nat) 1%nat).
  apply list_fmap_ext. intros _ j _. simpl. f_equal. lia.
Qed.

Lemma upfrom_app c (k1 k2 : nat) :
  upfrom c k1 ++ upfrom (c + Z.of_nat k1) k2 = upfrom c (k1 + k2).
Proof.
  unfold upfrom. rewrite seq_app, fmap_app. f_equal.
  rewrite (fmap_seq_from _ (0 + k1)).
  apply list_fmap_ext. intros _ j _. simpl. lia.
Qed.

Lemma counts_on_refl i : counts_on i [] i.
Proof. intros p n. exists 0%nat. split; [done | lia]. Qed.

Lemma counts_on_trans i1 i2 i3 new1 new2 :
  counts_on i1 new1 i2 → counts_on i2 new2 i3 → counts_on i1 (new1 ++ new2) i3.
Proof.
  intros H1 H2 p n. destruct (H1 p n) as (k1 & E1 & C1), (H2 p n) as (k2 & E2 & C2).
  exists (k1 + k2)%nat. rewrite header_indices_app, E1, E2, C1, upfrom_app.
  split; [done | lia].
Qed.

#[local] Instance http_step_refl : Reflexive http_step.
Proof.
  intros s. unfold http_step. exists []. rewrite app_nil_r. eauto using counts_on_refl.
Qed.

#[local] Instance http_step_trans : Transitive http_step.
Proof.
  intros s1 s2 s3 (n1 & W1 & C1 & H1 & P1) (n2 & W2 & C2 & H2 & P2).
  unfold http_step. exists (n1 ++ n2). rewrite W2, W1, app_assoc, H2, H1.
  split_and!; eauto using counts_on_trans.
Qed.

Ltac frame_done :=
  first [ by (eexists _, [_]; split; [reflexivity | done])
        | by (eexists _, []; rewrite app_nil_r; split; [reflexivity | done]) ].

Section BaseCalls.
Context {host : Host} {I : Type} `{Interaction I}.

(** A method of the base class leaves the object as it is and issues no
    [with_header_v2] call. *)
Lemma do_call_frame (c : InteractionCall) (i : I) (w : World) :
  ∃ r new, do_call c (i, w) = (r, (i, w ++ new))
           ∧ ∀ p n, header_indices p n new = [].
Proof.
  destruct c as [state name value parameters| body ct part | body ct part
                | pn path ct part boundary | name | contents ct part]; simpl.
  - destruct name as [nm|], value as [vl|], parameters as [[d|ps]|];
      rewrite ?given_with_param_run, ?given_with_str_run, ?given_with_dict_run,
              ?given_state_only_run;
      try destruct (json_dumps d); frame_done.
  - rewrite with_body_run. destruct (resolved_part _ _); frame_done.
  - rewrite with_binary_file_run. destruct (resolved_part _ _); frame_done.
  - rewrite with_multipart_file_run. destruct (resolved_part _ _); frame_done.
  - rewrite test_name_run. frame_done.
  - rewrite with_plugin_contents_run.
    destruct contents as [d|s]; [destruct (json_dumps d)|];
      try destruct (resolved_part _ _); frame_done.
Qed.


End BaseCalls.

Section HttpCalls.
Context {host : Host}.
Import HttpInteraction.

Lemma http_step_frame r (i : t) (w new : World) (s' : Result unit * (t * World)) :
  s' = (r, (i, w ++ new)) →
  (∀ p n, header_indices p n new = []) →
  http_step (i, w) (final s').
Proof.
  intros -> Hnew. unfold http_step. exists new. split_and!; try done.
  intros p n. exists 0%nat. rewrite Hnew. split; [done | unfold header_counter; simpl; lia].
Qed.

Lemma with_header_step name value part (s : t * World) :
  http_step s (final (with_header name value part s)).
Proof.
  destruct s as [i w]. rewrite with_header_run.
  destruct (resolved_part _ _) as [p|]; [|reflexivity].
  unfold http_step. exists [ffi.with_header_v2 (__handle i) p name (header_counter i p (lower name)) value].
  split_and!; try done.
  intros q n. unfold header_counter. simpl.
  case_decide as Hk.
  - destruct Hk as [-> <-]. exists 1%nat.
    rewrite lookup_insert_eq. simpl. split; [|lia].
    unfold upfrom. simpl. f_equal. lia.
  - exists 0%nat. rewrite lookup_insert_ne; [|naive_solver].
    split; [done | lia].
Qed.

Lemma do_http_call_step (c : HttpCall) (s : t * World) :
  http_step s (final (do_http_call c s)).
Proof.
  destruct c as [c| method path | name value part | headers part
                | name value part | headers part | name value | parameters
                | status]; simpl.
  - destruct s as [i w]. destruct (do_call_frame c i w) as (r & new & E & Hn).
    by eapply http_step_frame.
  - destruct s as [i w]. eapply http_step_frame; [apply with_request_run | done].
  - apply with_header_step.
  - apply (for_each_rel _ http_step). intros [n v] s'. apply with_header_step.
  - destruct s as [i w]. rewrite set_header_run.
    destruct (resolved_part _ _); [|reflexivity].
    by eapply http_step_frame.
  - apply (for_each_rel _ http_step). intros [n v] [i w]. rewrite set_header_run.
    destruct (resolved_part _ _); [|reflexivity].
    by eapply http_step_frame.
  - destruct s as [i w]. rewrite with_query_parameter_run.
    unfold http_step. exists [ffi.with_query_parameter_v2 (__handle i) name
              (default 0 (_parameter_indices i !! name)) value].
    split_and!; try done. intros p n. exists 0%nat. split; [done | unfold header_counter; simpl; lia].
  - apply (for_each_rel _ http_step). intros [n v] [i w].
    rewrite with_query_parameter_run.
    unfold http_step. exists [ffi.with_query_parameter_v2 (__handle i) n
              (default 0 (_parameter_indices i !! n)) v].
    split_and!; try done. intros p n'. exists 0%nat. split; [done | unfold header_counter; simpl; lia].
  - destruct s as [i w]. rewrite will_respond_with_run. simpl.
    unfold http_step. exists [ffi.response_status (__handle i) status].
    destruct (engine _ _); simpl; split_and!; try done;
      intros p n; exists 0%nat; (split; [done | unfold header_counter; simpl; lia]).
Qed.


End HttpCalls.

Section HttpClients.
Context {host : Host}.
Import HttpInteraction.

Lemma http_init_run pact_handle description (w0 : World) (i : t) (w1 : World) :
  __init__ pact_handle description w0 = (Return i, w1) →
  w1 = w0 ++ [ffi.new_interaction pact_handle description]
  ∧ __interaction_part i = ffi.REQUEST
  ∧ _request_indices i = ∅
  ∧ _parameter_indices i = ∅
  ∧ _description i = description.
Proof.
  unfold __init__. rewrite bind_run. unfold invoke. simpl.
  destruct (engine _ _); [|done]. simpl. by intros [= <- <-].
Qed.

Lemma run_calls_http_step (cs : list HttpCall) (s : t * World) :
  http_step s (run_calls do_http_call cs s).
Proof.
  apply (run_calls_rel _ http_step (λ _, True)).
  - intros c s' _. apply do_http_call_step.
  - by apply Forall_true.
Qed.




End HttpClients.

Section HeaderIndices.
Context {host : Host}.
Import HttpInteraction.

(** C2: on one HTTP interaction, the indices recorded by [with_header] for
    one part and one lowercased header name are 0, 1, 2, ... in the order
    of the calls, whatever other calls are made in between; each call
    records the counter kept for its part and lowercased name, adds one to
    it and leaves every other counter alone. *)
Theorem header_index_sequence pact_handle description (w0 : World) (i : t)
    (w1 : World) (cs : list HttpCall) (p : ffi.InteractionPart) (n : string) :
  __init__ pact_handle description w0 = (Return i, w1) →
  let s := run_calls do_http_call cs (i, w1) in
  (∃ k : nat,
      header_indices p n (issued_since w1 (snd s)) = upto k
      ∧ header_counter (fst s) p n = Z.of_nat k)
  ∧ (∀ name value part q,
       resolved_part (__interaction_part (fst s)) part = Some q →
       let s' := final (with_header name value part s) in
       issued (with_header name value part) s =
         [ffi.with_header_v2 (__handle (fst s)) q name
                             (header_counter (fst s) q (lower name)) value]
       ∧ header_counter (fst s') q (lower name) =
           header_counter (fst s) q (lower name) + 1
       ∧ ∀ q' n', (q', n') ≠ (q, lower name) →
           header_counter (fst s') q' n' = header_counter (fst s) q' n').
Proof.
  intros Hinit s. apply http_init_run in Hinit as (_ & _ & Hidx & _).
  split.
  - destruct (run_calls_http_step cs (i, w1)) as (new & Hw & Hcount & _).
    fold s in Hw, Hcount. simpl in Hw, Hcount.
    destruct (Hcount p n) as (k & Hk & Hc).
    assert (header_counter i p n = 0) as Hz
      by (unfold header_counter; by rewrite Hidx, lookup_empty).
    exists k. rewrite Hw, issued_since_app, Hk, Hc, Hz. split; [done | lia].
  - intros name value part q Hq. destruct s as [i' w']. unfold issued. simpl in *.
    rewrite with_header_run, Hq. simpl. rewrite issued_since_app.
    split_and!; [done | |].
    + unfold header_counter at 1. simpl. by rewrite lookup_insert_eq.
    + intros q' n' Hne. unfold header_counter at 1. simpl.
      by rewrite lookup_insert_ne.
Qed.

End HeaderIndices.

Section Given.
Context {host : Host} {I : Type} `{Interaction I}.

Lemma given_invalid_run state name value
    (parameters : option (DictOrStr PyDict)) (i : I) (w : World) :
  ¬ (state_only name value parameters ∨ state_name_value name value parameters
     ∨ state_parameters name value parameters) →
  Interaction.given state name value parameters (i, w) =
  (Raise (ValueError "Invalid combination of arguments."), (i, w)).
Proof.
  unfold state_only, state_name_value, state_parameters. intros Hno.
  destruct name, value, parameters as [[d|ps]|]; try done; exfalso; apply Hno; intuition congruence.
Qed.

(** C3: [given] raises its [ValueError] exactly when the arguments are in
    none of the three shapes (state only; name and value without
    parameters; parameters without name and value), and then does nothing
    else; in each of the three shapes it makes the one call of the binding
    that belongs to the shape and ends as that call ends, so it returns
    whenever the dictionary can be encoded and the engine accepts. *)
Theorem given_argument_shapes state name value
    (parameters : option (DictOrStr PyDict)) (i : I) (w : World) :
  let r := Interaction.given state name value parameters (i, w) in
  let sanctioned := state_only name value parameters
                    ∨ state_name_value name value parameters
                    ∨ state_parameters name value parameters in
  (is_ValueError (outcome r) ↔ ¬ sanctioned)
  ∧ (¬ sanctioned →
     r = (Raise (ValueError "Invalid combination of arguments."), (i, w)))
  ∧ (state_only name value parameters →
     let c := ffi.given (_handle i) state in
     r = (engine_outcome w c, (i, w ++ [c])))
  ∧ (∀ n v, name = Some n → value = Some v → parameters = None →
     let c := ffi.given_with_param (_handle i) state n v in
     r = (engine_outcome w c, (i, w ++ [c])))
  ∧ (∀ ps, name = None → value = None → parameters = Some (a_str ps) →
     let c := ffi.given_with_params (_handle i) state ps in
     r = (engine_outcome w c, (i, w ++ [c])))
  ∧ (∀ d js, name = None → value = None → parameters = Some (a_dict d) →
     json_dumps d = Some js →
     let c := ffi.given_with_params (_handle i) state js in
     r = (engine_outcome w c, (i, w ++ [c])))
  ∧ (∀ d, name = None → value = None → parameters = Some (a_dict d) →
     json_dumps d = None → r = (Raise JSONEncodeError, (i, w)))
  ∧ ((∀ d : PyDict, json_dumps d ≠ None) → (∀ w c, engine w c ≠ None) →
     (outcome r = Return tt ↔ sanctioned)).
Proof.
  intros r sanctioned.
  assert (sanctioned → ¬ is_ValueError (outcome r)) as Hok.
  { subst r sanctioned. unfold state_only, state_name_value, state_parameters.
    intros Hs [msg Hmsg].
    destruct name as [n|], value as [v|], parameters as [[d|ps]|];
      try (exfalso; intuition congruence);
      rewrite ?given_with_param_run, ?given_with_str_run, ?given_with_dict_run,
              ?given_state_only_run in Hmsg;
      try destruct (json_dumps d); unfold engine_outcome in Hmsg; simpl in Hmsg;
      try destruct (engine _ _); done. }
  assert (Decision sanctioned) as Hdec.
  { subst sanctioned. unfold state_only, state_name_value, state_parameters.
    destruct name, value, parameters; (left; intuition congruence) || (right; intuition congruence). }
  split_and!.
  - split.
    + intros Hv Hs. by apply Hok.
    + intros Hno. subst r. rewrite given_invalid_run by done. by eexists.
  - intros Hno. by apply given_invalid_run.
  - intros (-> & -> & ->). apply given_state_only_run.
  - intros n v -> -> ->. apply given_with_param_run.
  - intros ps -> -> ->. apply given_with_str_run.
  - intros d js -> -> -> Hd. subst r. by rewrite given_with_dict_run, Hd.
  - intros d -> -> -> Hd. subst r. by rewrite given_with_dict_run, Hd.
  - intros Hdumps Hengine. split.
    + intros Hret. destruct Hdec as [|Hno]; [done|].
      subst r. by rewrite given_invalid_run in Hret.
    + subst r sanctioned. unfold state_only, state_name_value, state_parameters.
      intros Hs.
      destruct name as [n|], value as [v|], parameters as [[d|ps]|];
        try (exfalso; intuition congruence);
        rewrite ?given_with_param_run, ?given_with_str_run, ?given_with_dict_run,
                ?given_state_only_run;
        try (specialize (Hdumps d); destruct (json_dumps d); [|done]);
        unfold engine_outcome; simpl;
        match goal with |- context [engine ?w ?c] =>
          specialize (Hengine w c); by destruct (engine w c) end.
Qed.

End Given.


(** Before any [will_respond_with], the same call goes to the request. *)
Example with_header_before_response :
  issued (HttpInteraction.with_header (host := example_host) "X" "v" None)
         example_http
  = [ffi.with_header_v2 {| ffi.interaction_ref := 1 |} ffi.REQUEST "X" 0 "v"].
Proof. reflexivity. Qed.

(** When the engine refuses [response_status], the part is not changed. *)
Example refused_response_keeps_request :
  HttpInteraction.__interaction_part
    (fst (final (HttpInteraction.will_respond_with (host := refusing_host) 200
                   example_http)))
  = ffi.REQUEST.
Proof. reflexivity. Qed.

(** A witness for C2: [X-Foo], another header, then [x-foo] again. *)
Lemma header_index_sequence_witness :
  let cs := [call_with_header (host := example_host) "X-Foo" "bar" None;
             call_with_header "Accept" "text/plain" None;
             call_with_header "x-foo" "baz" None] in
  let s := run_calls do_http_call cs example_http in
  HttpInteraction.__init__ (host := example_host) example_pact_handle
      "a request" [ffi.new_pact "consumer" "provider"]
    = (Return (fst example_http), snd example_http)
  ∧ (∃ k : nat,
        header_indices ffi.REQUEST "x-foo"
          (issued_since (snd example_http) (snd s)) = upto k
        ∧ header_counter (fst s) ffi.REQUEST "x-foo" = Z.of_nat k)
  ∧ header_indices ffi.REQUEST "x-foo"
      (issued_since (snd example_http) (snd s)) = [0; 1].
Proof.
  intros cs s.
  destruct (header_index_sequence (host := example_host) example_pact_handle
              "a request" [ffi.new_pact "consumer" "provider"]
              (fst example_http) (snd example_http) cs ffi.REQUEST "x-foo"
              eq_refl)
    as (Hseq & _).
  split_and!; [reflexivity | exact Hseq | reflexivity].
Defined.

(** A call the engine refuses is counted all the same: the counter is
    written before the binding is called. *)
Example refused_header_is_counted :
  issued_since (snd example_http)
    (snd (run_calls (do_http_call (host := refusing_host))
            [call_with_header "X-Foo" "a" None;
             call_with_header "X-Foo" "b" None] example_http))
  = [ffi.with_header_v2 {| ffi.interaction_ref := 1 |} ffi.REQUEST "X-Foo" 0 "a";
     ffi.with_header_v2 {| ffi.interaction_ref := 1 |} ffi.REQUEST "X-Foo" 1 "b"].
Proof. reflexivity. Qed.

(** The same name on the two parts is counted apart. *)
Example header_indices_per_part :
  issued_since (snd example_http)
    (snd (run_calls (do_http_call (host := example_host))
            [call_with_header "X-Foo" "a" None;
             call_with_header "X-Foo" "b" (Some "Response");
             call_will_respond_with 200;
             call_with_header "X-FOO" "c" None;
             call_with_header "X-Foo" "d" (Some "Request")] example_http))
  = [ffi.with_header_v2 {| ffi.interaction_ref := 1 |} ffi.REQUEST "X-Foo" 0 "a";
     ffi.with_header_v2 {| ffi.interaction_ref := 1 |} ffi.RESPONSE "X-Foo" 0 "b";
     ffi.response_status {| ffi.interaction_ref := 1 |} 200;
     ffi.with_header_v2 {| ffi.interaction_ref := 1 |} ffi.RESPONSE "X-FOO" 1 "c";
     ffi.with_header_v2 {| ffi.interaction_ref := 1 |} ffi.REQUEST "X-Foo" 1 "d"].
Proof. reflexivity. Qed.

(** With the example environment, [given] returns in the three shapes and
    in no other. *)
Example given_shapes_example :
  let given := λ name value parameters,
    outcome (Interaction.given (host := example_host) "a user exists"
               name value parameters example_http) in
  given None None None = Return tt
  ∧ given (Some "id") (Some "123") None = Return tt
  ∧ given None None (Some (a_dict "{}")) = Return tt
  ∧ given None None (Some (a_str "free text")) = Return tt
  ∧ given (Some "id") None None
    = Raise (ValueError "Invalid combination of arguments.")
  ∧ given None (Some "123") None
    = Raise (ValueError "Invalid combination of arguments.")
  ∧ given (Some "id") (Some "123") (Some (a_str "{}"))
    = Raise (ValueError "Invalid combination of arguments.")
  ∧ given (Some "id") None (Some (a_str "{}"))
    = Raise (ValueError "Invalid combination of arguments.")
  ∧ given None (Some "123") (Some (a_str "{}"))
    = Raise (ValueError "Invalid combination of arguments.").
Proof. repeat split; reflexivity. Qed.

Section ProviderStateFacts.
Context {host : Host} {I : Type} `{Interaction I}.
Variable json_object : string → option StrDict.

Lemma provider_states_snoc h (w : World) (c : ffi.Call) :
  ProviderStates.provider_states json_object h (w ++ [c]) =
  ProviderStates.provider_states json_object h w
    ≫= ProviderStates.register json_object h c.
Proof. unfold ProviderStates.provider_states. by rewrite foldl_app. Qed.

(** C4: a parameter string that is not valid JSON is not refused: [given]
    passes it on as it is, in one [given_with_params] call, and the engine
    registers it as the value of the single parameter [value], which leaves
    the provider states of every interaction as
    [given(state, name="value", value=s)] leaves them. *)
Theorem given_plain_string_parameters state (s : string) (i : I) (w : World) :
  json_object s = None →
  let as_parameters := Interaction.given state None None (Some (a_str s)) (i, w) in
  let as_value := Interaction.given state (Some "value") (Some s) None (i, w) in
  ¬ is_ValueError (outcome as_parameters)
  ∧ fst (final as_parameters) = i
  ∧ issued (Interaction.given state None None (Some (a_str s))) (i, w)
      = [ffi.given_with_params (_handle i) state s]
  ∧ issued (Interaction.given state (Some "value") (Some s) None) (i, w)
      = [ffi.given_with_param (_handle i) state "value" s]
  ∧ (∀ ps, ProviderStates.register json_object (_handle i)
             (ffi.given_with_params (_handle i) state s) ps
           = Some (ProviderStates.merge state [("value", s)] ps))
  ∧ ∀ h, ProviderStates.provider_states json_object h (snd (final as_parameters))
         = ProviderStates.provider_states json_object h (snd (final as_value)).
Proof.
  intros Hs as_parameters as_value. subst as_parameters as_value.
  unfold issued. rewrite given_with_str_run, given_with_param_run. simpl.
  rewrite !issued_since_app. split_and!; try done.
  - intros [msg Hmsg]. unfold engine_outcome in Hmsg. by destruct (engine _ _).
  - intros ps. simpl. rewrite Hs. by rewrite decide_True.
  - intros h. rewrite !provider_states_snoc.
    destruct (ProviderStates.provider_states json_object h w); simpl;
      [by rewrite Hs | done].
Qed.

End ProviderStateFacts.

(** A witness for C4: the string [not json] under a reader that knows only
    the empty object. *)
Lemma given_plain_string_parameters_witness :
  ProviderStates.only_empty_object "not json" = None
  ∧ ProviderStates.provider_states ProviderStates.only_empty_object
      {| ffi.interaction_ref := 1 |}
      (snd (final (Interaction.given (host := example_host) "a user exists"
                     None None (Some (a_str "not json")) example_http)))
    = Some [("a user exists", {["value" := "not json"]})].
Proof.
  split; [reflexivity|].
  destruct (given_plain_string_parameters (host := example_host)
              ProviderStates.only_empty_object "a user exists" "not json"
              (fst example_http) (snd example_http) eq_refl)
    as (_ & _ & _ & _ & _ & Hsame).
  etrans; [exact (Hsame {| ffi.interaction_ref := 1 |}) | vm_compute; reflexivity].
Defined.

Section SetHeader.
Context {host : Host}.
Import HttpInteraction.

(** C5 as amended: [set_header] resolves the part as [with_header] does and
    passes the name and the value on as they are, but it computes no index
    and leaves the interaction, with every header counter, untouched;
    [with_header] on the same state passes the same part together with the
    counter of the lowercased name. *)
Theorem set_header_keeps_counters name value part (i : t) (w : World) :
  let r := set_header name value part (i, w) in
  fst (final r) = i
  ∧ (∀ p n, header_counter (fst (final r)) p n = header_counter i p n)
  ∧ (∀ p, resolved_part (__interaction_part i) part = Some p →
       r = (engine_outcome w (ffi.set_header (__handle i) p name value),
            (i, w ++ [ffi.set_header (__handle i) p name value]))
       ∧ issued (with_header name value part) (i, w)
         = [ffi.with_header_v2 (__handle i) p name
                               (header_counter i p (lower name)) value])
  ∧ (resolved_part (__interaction_part i) part = None →
       r = (Raise (ValueError (String.append "Invalid part: " (default "" part))),
            (i, w))
       ∧ with_header name value part (i, w) = r).
Proof.
  intros r. subst r. rewrite set_header_run.
  destruct (resolved_part _ _) as [p|] eqn:Hp; simpl.
  - split_and!; try done. intros q [= <-]. split; [done|].
    unfold issued. rewrite with_header_run, Hp. simpl.
    by rewrite issued_since_app.
  - split_and!; try done. intros _. split; [done|].
    by rewrite with_header_run, Hp.
Qed.

End SetHeader.

(** C5 as stated fails: on a new interaction, [set_header("X-Foo", "bar")]
    leaves the counter of [x-foo] for the request at 0. *)
Lemma set_header_does_not_count :
  ¬ set_header_counts (host := example_host) "X-Foo" "bar" None example_http.
Proof.
  intros Hcounts. specialize (Hcounts ffi.REQUEST eq_refl).
  vm_compute in Hcounts. discriminate.
Qed.

(** After [set_header("X-Foo", "bar")], [with_header("X-Foo", "baz")] still
    records index 0. *)
Example set_header_then_with_header :
  issued_since (snd example_http)
    (snd (run_calls (do_http_call (host := example_host))
            [call_set_header "X-Foo" "bar" None;
             call_with_header "X-Foo" "baz" None] example_http))
  = [ffi.set_header {| ffi.interaction_ref := 1 |} ffi.REQUEST "X-Foo" "bar";
     ffi.with_header_v2 {| ffi.interaction_ref := 1 |} ffi.REQUEST "X-Foo" 0 "baz"].
Proof. reflexivity. Qed.

Section SyncMessage.
Context {host : Host}.





End SyncMessage.



(** On the example: [with_body] after every inherited method still goes to
    the request. *)
Example sync_partless_goes_to_request :
  issued (Interaction.with_body (host := example_host) (Some "pong")
            "text/plain" None)
         (run_calls do_call
            [call_given (host := example_host) "ready" None None None;
             call_with_body (Some "ping") "text/plain" (Some "Response");
             call_with_plugin_contents (a_str "{}") "text/plain" None;
             call_test_name "ping"] example_sync)
  = [ffi.with_body {| ffi.interaction_ref := 1 |} ffi.REQUEST "text/plain"
       (Some "pong")].
Proof. reflexivity. Qed.

(** ** Version strings *)

Lemma upper_lower_char (c : ascii) : upper_char (lower_char c) = upper_char c.
Proof. by destruct c as [[] [] [] [] [] [] [] []]. Qed.

Lemma upper_lower (s : string) : upper (lower s) = upper s.
Proof.
  unfold upper, lower. induction s as [|c s IH]; [done|].
  cbn [str_map]. by rewrite IH, upper_lower_char.
Qed.

Lemma dot_upper_dot_char (c : ascii) :
  dot_char (upper_char (dot_char c)) = dot_char (upper_char c).
Proof. by destruct c as [[] [] [] [] [] [] [] []]. Qed.

Lemma startswith_V_dot_upper_dot (s : string) :
  startswith_V (replace_dot (upper (replace_dot s)))
  = startswith_V (replace_dot (upper s)).
Proof. destruct s as [|c s]; [done|]. by destruct c as [[] [] [] [] [] [] [] []]. Qed.

Lemma replace_dot_upper_replace_dot (s : string) :
  replace_dot (upper (replace_dot s)) = replace_dot (upper s).
Proof.
  unfold replace_dot, upper. induction s as [|c s IH]; [done|].
  cbn [str_map]. by rewrite IH, dot_upper_dot_char.
Qed.

Lemma startswith_V_replace_dot (s : string) :
  startswith_V (replace_dot s) = startswith_V s.
Proof. destruct s as [|c s]; [done|]. by destruct c as [[] [] [] [] [] [] [] []]. Qed.

Section Specification.
Context {host : Host}.

Lemma with_specification_typed_run (v : ffi.PactSpecification) (p : Pact.t)
    (w : World) :
  Pact.with_specification (inr v) (p, w) =
  let c := ffi.with_specification (Pact._handle p) v in
  (engine_outcome w c, (p, w ++ [c])).
Proof.
  unfold Pact.with_specification, engine_outcome. py_run.
  by destruct (engine _ _).
Qed.

Lemma with_specification_str_run (version : string) (p : Pact.t) (w : World) :
  Pact.with_specification (inl version) (p, w) =
  match PactSpecification_getitem (Pact.member_name version) with
  | Some v => Pact.with_specification (inr v) (p, w)
  | None => (Raise (KeyError (Pact.member_name version)), (p, w))
  end.
Proof.
  unfold Pact.with_specification, Pact.PactSpecification_lookup.
  rewrite bind_run. by destruct (PactSpecification_getitem _).
Qed.

(** C7: a typed version is passed to the binding as it is; a version string
    is looked up in the enumeration under a name made from it by
    upper-casing, writing [_] for [.], and putting [V] in front unless it
    is there already, so the case of the letters, a leading [v] and the
    choice between [.] and [_] make no difference; ["v3.0.0"] and
    ["3_0_0"] are both looked up as [V3_0_0] and so behave alike; a string
    whose name is no member, as ["bogus"] when [VBOGUS] is none, raises
    [KeyError] and nothing is passed to the binding. *)
Theorem with_specification_versions (p : Pact.t) (w : World) :
  (∀ v, Pact.with_specification (inr v) (p, w) =
        (engine_outcome w (ffi.with_specification (Pact._handle p) v),
         (p, w ++ [ffi.with_specification (Pact._handle p) v])))
  ∧ (∀ s, Pact.with_specification (inl s) (p, w) =
          match PactSpecification_getitem (Pact.member_name s) with
          | Some v => Pact.with_specification (inr v) (p, w)
          | None => (Raise (KeyError (Pact.member_name s)), (p, w))
          end)
  ∧ (∀ s1 s2, lower s1 = lower s2 → Pact.member_name s1 = Pact.member_name s2)
  ∧ (∀ s, Pact.member_name (String "v" s) = String "V" (replace_dot (upper s))
          ∧ Pact.member_name (String "V" s) = String "V" (replace_dot (upper s)))
  ∧ (∀ s, startswith_V (upper s) = false →
          Pact.member_name s = String "V" (replace_dot (upper s)))
  ∧ (∀ s, Pact.member_name (replace_dot s) = Pact.member_name s)
  ∧ Pact.member_name "v3.0.0" = "V3_0_0"
  ∧ Pact.member_name "3_0_0" = "V3_0_0"
  ∧ Pact.with_specification (inl "v3.0.0") (p, w)
    = Pact.with_specification (inl "3_0_0") (p, w)
  ∧ Pact.member_name "bogus" = "VBOGUS"
  ∧ (PactSpecification_getitem "VBOGUS" = None →
     Pact.with_specification (inl "bogus") (p, w)
     = (Raise (KeyError "VBOGUS"), (p, w))).
Proof.
  split_and!.
  - intros v. apply with_specification_typed_run.
  - intros s. apply with_specification_str_run.
  - intros s1 s2 Hs. unfold Pact.member_name.
    by rewrite <- (upper_lower s1), <- (upper_lower s2), Hs.
  - intros s. by split.
  - intros s Hs. unfold Pact.member_name.
    by rewrite startswith_V_replace_dot, Hs.
  - intros s. unfold Pact.member_name.
    by rewrite startswith_V_dot_upper_dot, replace_dot_upper_replace_dot.
  - reflexivity.
  - reflexivity.
  - by rewrite !with_specification_str_run.
  - reflexivity.
  - intros Hno. rewrite with_specification_str_run.
    change (Pact.member_name "bogus") with "VBOGUS". by rewrite Hno.
Qed.

End Specification.

(** With the members [V1], [V1_1], [V2], [V3] and [V4]: ["v3"], ["V3"] and
    ["3"] select [V3], ["1.1"] selects [V1_1], and ["bogus"] raises. *)
Example with_specification_example :
  let run := λ version,
    Pact.with_specification (host := example_host) version
      ({| Pact._consumer := "consumer"; Pact._provider := "provider";
          Pact._interactions := []; Pact._handle := example_pact_handle |},
       []) in
  issued_since [] (snd (snd (run (inl "v3"))))
    = [ffi.with_specification example_pact_handle (ffi.Member 4)]
  ∧ run (inl "V3") = run (inl "v3")
  ∧ run (inl "3") = run (inl "v3")
  ∧ run (inr (ffi.Member 4)) = run (inl "v3")
  ∧ issued_since [] (snd (snd (run (inl "1.1"))))
    = [ffi.with_specification example_pact_handle (ffi.Member 2)]
  ∧ fst (run (inl "bogus")) = Raise (KeyError "VBOGUS")
  ∧ snd (snd (run (inl "bogus"))) = [].
Proof. repeat split; reflexivity. Qed.

(** ** The mock server *)

Section Server.
Context {host : Host}.

Lemma enter_run (srv : PactServer.t) (w : World) :
  PactServer.__enter__ (srv, w) =
  let c := ffi.create_mock_server_for_transport
             (PactServer._pact_handle srv) (PactServer._host srv)
             (PactServer._port srv) (PactServer._transport srv)
             (PactServer._transport_config srv) in
  match engine w c with
  | Some r =>
      (Return tt,
       (PactServer.set__handle (Some {| ffi.port := r |}) srv, w ++ [c]))
  | None => (Raise EngineError, (srv, w ++ [c]))
  end.
Proof.
  unfold PactServer.__enter__. py_run. unfold invoke. simpl.
  by destruct (engine _ _).
Qed.

Lemma exit_run (exc : option Exn) (srv : PactServer.t) (w : World) :
  PactServer.__exit__ exc (srv, w)
  = (Return tt, (PactServer.set__handle None srv, w)).
Proof.
  unfold PactServer.__exit__. py_run. destruct srv as [h p tr cfg ph [hd|]]; done.
Qed.

Lemma with_block_released {A} (body : Py (PactServer.t * World) A)
    (srv : PactServer.t) (w : World) :
  let r := with_block PactServer.__enter__ PactServer.__exit__ body (srv, w) in
  (outcome (PactServer.__enter__ (srv, w)) = Return tt →
   PactServer._handle (fst (final r)) = None)
  ∧ (outcome (PactServer.__enter__ (srv, w)) ≠ Return tt → fst (final r) = srv).
Proof.
  unfold with_block. rewrite enter_run. simpl.
  destruct (engine _ _) as [r|]; simpl; [|done].
  split; [intros _|done].
  destruct (body _) as [[a|e] [srv2 w2]]; by rewrite exit_run.
Qed.

(** C8: [port] is 0 for a server holding no handle, so for a new server
    and after [__exit__]; [__exit__] always returns, leaves the server with
    no handle and touches nothing else, whatever exception it is told
    about, and does nothing at all when no handle is held; a [with] block
    leaves the server without handle whether its body returns or raises,
    and an exception of the body goes on to the caller. *)
Theorem server_port_lifecycle :
  (∀ pact_handle addr port transport transport_config,
     PactServer.port
       (PactServer.__init__ pact_handle addr port transport transport_config)
     = 0)
  ∧ (∀ srv, PactServer._handle srv = None → PactServer.port srv = 0)
  ∧ (∀ exc srv w,
       let r := PactServer.__exit__ exc (srv, w) in
       r = (Return tt, (PactServer.set__handle None srv, w))
       ∧ PactServer._handle (fst (final r)) = None
       ∧ PactServer.port (fst (final r)) = 0)
  ∧ (∀ exc srv w, PactServer._handle srv = None →
       PactServer.__exit__ exc (srv, w) = (Return tt, (srv, w)))
  ∧ (∀ srv w r,
       engine w (ffi.create_mock_server_for_transport
                   (PactServer._pact_handle srv) (PactServer._host srv)
                   (PactServer._port srv) (PactServer._transport srv)
                   (PactServer._transport_config srv)) = Some r →
       outcome (PactServer.__enter__ (srv, w)) = Return tt
       ∧ PactServer.port (fst (final (PactServer.__enter__ (srv, w)))) = r)
  ∧ (∀ A (body : Py (PactServer.t * World) A) srv w,
       let r := with_block PactServer.__enter__ PactServer.__exit__ body
                           (srv, w) in
       (outcome (PactServer.__enter__ (srv, w)) = Return tt →
        PactServer._handle (fst (final r)) = None
        ∧ PactServer.port (fst (final r)) = 0)
       ∧ (PactServer._handle srv = None →
          PactServer._handle (fst (final r)) = None
          ∧ PactServer.port (fst (final r)) = 0)
       ∧ (∀ s1 e s2, PactServer.__enter__ (srv, w) = (Return tt, s1) →
            body s1 = (Raise e, s2) →
            outcome r = Raise e ∧ PactServer._handle (fst (final r)) = None)).
Proof.
  assert (∀ srv, PactServer._handle srv = None → PactServer.port srv = 0)
    as Hport by (intros srv Hnone; unfold PactServer.port; by rewrite Hnone).
  split_and!.
  - done.
  - done.
  - intros exc srv w r. subst r. by rewrite exit_run.
  - intros exc srv w Hnone. rewrite exit_run. by destruct srv; simplify_eq/=.
  - intros srv w r Hr. rewrite enter_run. simpl. by rewrite Hr.
  - intros A body srv w r.
    destruct (with_block_released body srv w) as [Hin Hout]. fold r in Hin, Hout.
    split_and!.
    + intros Hret. split; [by apply Hin | by apply Hport, Hin].
    + intros Hnone.
      assert (PactServer._handle (fst (final r)) = None) as Hr;
        [|by split; [|apply Hport]].
      destruct (outcome (PactServer.__enter__ (srv, w))) as [[]|e] eqn:He.
      * by apply Hin.
      * by rewrite Hout.
    + intros s1 e s2 Henter Hbody. split; [|apply Hin; by rewrite Henter].
      subst r. unfold with_block. rewrite Henter, Hbody.
      destruct s2 as [srv2 w2]. by rewrite exit_run.
Qed.

End Server.

(** A server of the example environment: port 0 before the block, the
    engine's port inside, 0 again after a body that raises. *)
Example server_port_example :
  let srv := PactServer.__init__ example_pact_handle "localhost" 0 "http" None in
  let w := [ffi.new_pact "consumer" "provider";
            ffi.new_interaction example_pact_handle "a request"] in
  let body : Py (PactServer.t * World) unit :=
    λ s, (Raise (RuntimeError "test failed"), s) in
  PactServer.port srv = 0
  ∧ PactServer.port
      (fst (final (PactServer.__enter__ (host := example_host) (srv, w)))) = 2
  ∧ with_block (PactServer.__enter__ (host := example_host))
               PactServer.__exit__ body (srv, w)
    = (Raise (RuntimeError "test failed"),
       (srv, w ++ [ffi.create_mock_server_for_transport example_pact_handle
                     "localhost" 0 "http" None])).
Proof. repeat split; reflexivity. Qed.

(** ** Several headers at once *)

Section Headers.
Context {host : Host}.
Import HttpInteraction.

Lemma for_each_chain {S A C} (body : A → Py S unit) (do : C → Py S unit)
    (call : A → C) (xs : list A) (s : S) :
  (∀ x s, body x s = do (call x) s) →
  for_each xs body s = chain do (call <$> xs) s.
Proof.
  intros Hbody. revert s. induction xs as [|x xs IH]; intros s; [done|].
  simpl. rewrite bind_run, Hbody.
  destruct (do (call x) s) as [[[]|e] s']; [|done].
  apply IH.
Qed.

(** C9: [with_headers(headers, part)] does what the chain of
    [with_header(name, value, part)] calls does, one call per pair in the
    order of iteration, a dictionary giving its items in order: the same
    result, the same interaction and the same calls of the binding.
    [set_headers] stands to [set_header] in the same way. *)
Theorem with_headers_is_chain (headers : DictOrPairs) (part : option string)
    (s : t * World) :
  with_headers headers part s
  = chain do_http_call
      ((λ nv, call_with_header (fst nv) (snd nv) part) <$> pairs_of headers) s
  ∧ set_headers headers part s
  = chain do_http_call
      ((λ nv, call_set_header (fst nv) (snd nv) part) <$> pairs_of headers) s
  ∧ (∀ d, pairs_of (pairs_dict d) = items d)
  ∧ (∀ l, pairs_of (pairs_iter l) = l).
Proof.
  split_and!; try done.
  - unfold with_headers. destruct headers as [d|l]; simpl;
      by apply for_each_chain; intros [name value] s'.
  - unfold set_headers. destruct headers as [d|l]; simpl;
      by apply for_each_chain; intros [name value] s'.
Qed.

End Headers.

(** ** The pact *)

Section PactFacts.
Context {host : Host}.

Lemma pact_init_run consumer provider (w0 : World) (p : Pact.t) (w1 : World) :
  Pact.__init__ consumer provider w0 = (Return p, w1) →
  w1 = w0 ++ [ffi.new_pact consumer provider]
  ∧ Pact._consumer p = consumer
  ∧ Pact._provider p = provider
  ∧ Pact._interactions p = []
  ∧ consumer ≠ "" ∧ provider ≠ "".
Proof.
  unfold Pact.__init__. repeat case_decide; try done.
  rewrite bind_run. unfold invoke. simpl.
  destruct (engine _ _); [|done]. simpl. by intros [= <- <-].
Qed.

Lemma upon_receiving_run description interaction (p : Pact.t) (w : World) :
  Pact.upon_receiving description interaction (p, w) =
  let h := Pact._handle p in
  let made (c : ffi.Call) (mk : Z → AnyInteraction) :=
    (match engine w c with
     | Some r => Return (mk r)
     | None => Raise EngineError
     end, (p, w ++ [c])) in
  if decide (interaction = "HTTP") then
    made (ffi.new_interaction h description)
         (λ r, Http {| HttpInteraction._description := description;
                       HttpInteraction.__handle := {| ffi.interaction_ref := r |};
                       HttpInteraction.__interaction_part := ffi.REQUEST;
                       HttpInteraction._request_indices := ∅;
                       HttpInteraction._parameter_indices := ∅ |})
  else if decide (interaction = "Async") then
    made (ffi.new_message_interaction h description)
         (λ r, Async {| AsyncMessageInteraction._description := description;
                        AsyncMessageInteraction.__handle :=
                          {| ffi.interaction_ref := r |} |})
  else if decide (interaction = "Sync") then
    made (ffi.new_sync_message_interaction h description)
         (λ r, Sync {| SyncMessageInteraction._description := description;
                       SyncMessageInteraction.__handle :=
                         {| ffi.interaction_ref := r |};
                       SyncMessageInteraction.__interaction_part := ffi.REQUEST |})
  else (Raise (ValueError (String.append "Invalid interaction type: " interaction)),
        (p, w)).
Proof.
  unfold Pact.upon_receiving. rewrite bind_run. cbn [gets fst].
  repeat case_decide; try done; rewrite bind_run; unfold in_world;
    unfold HttpInteraction.__init__, AsyncMessageInteraction.__init__,
           SyncMessageInteraction.__init__;
    rewrite bind_run; unfold invoke; simpl; by destruct (engine _ _).
Qed.

(** No method of [Pact] writes a field of the pact. *)
Lemma do_pact_call_object (c : PactCall) (s : Pact.t * World) :
  fst (final (do_pact_call c s)) = fst s.
Proof.
  destruct s as [p w].
  destruct c as [version | name version | namespace metadata
                | description interaction | addr port transport cfg |
                | kind | directory overwrite]; simpl.
  - destruct version as [v|v].
    + rewrite with_specification_str_run, ?with_specification_typed_run.
      destruct (PactSpecification_getitem _); [|done].
      by rewrite with_specification_typed_run.
    + by rewrite with_specification_typed_run.
  - unfold Pact.using_plugin. py_run. unfold invoke. simpl. by destruct (engine _ _).
  - set (R := λ s s' : Pact.t * World, fst s' = fst s).
    assert (Reflexive R) by done.
    assert (Transitive R) by (intros ??? E1 E2; unfold R in *; congruence).
    apply (for_each_rel _ R). intros [k v] [p' w']. unfold R.
    py_run. unfold invoke. simpl. by destruct (engine _ _).
  - rewrite bind_run, upon_receiving_run. simpl.
    repeat case_decide; try done; by destruct (engine _ _).
  - done.
  - unfold Pact.messages. py_run. unfold invoke. simpl. by destruct (engine _ _).
  - unfold Pact.interactions. py_run.
    repeat case_decide; try done; unfold invoke; simpl; by destruct (engine _ _).
  - unfold Pact.write_file. py_run. unfold invoke. simpl. by destruct (engine _ _).
Qed.

(** C10: [upon_receiving] hands back a new interaction of the kind asked
    for, with the description given, the handle the engine returns, the
    request as current part and all counters empty, made by one call of the
    binding on the pact's handle (it raises when the engine refuses that
    call), and writes no field of the pact; as no other method writes one
    either, the pact stays as [__init__] made it, with [_interactions]
    empty, whatever is called on it. *)
Theorem pact_fields_unchanged consumer provider (w0 : World) (p : Pact.t)
    (w1 : World) (cs : list PactCall) :
  Pact.__init__ consumer provider w0 = (Return p, w1) →
  let s := run_calls do_pact_call cs (p, w1) in
  Pact._interactions p = []
  ∧ fst s = p
  ∧ Pact._interactions (fst s) = []
  ∧ (∀ description interaction,
       let r := Pact.upon_receiving description interaction s in
       fst (final r) = fst s
       ∧ (interaction = "HTTP" →
          issued (Pact.upon_receiving description interaction) s
            = [ffi.new_interaction (Pact._handle p) description]
          ∧ outcome r =
              match engine (snd s)
                      (ffi.new_interaction (Pact._handle p) description) with
              | Some h =>
                  Return (Http
                    {| HttpInteraction._description := description;
                       HttpInteraction.__handle := {| ffi.interaction_ref := h |};
                       HttpInteraction.__interaction_part := ffi.REQUEST;
                       HttpInteraction._request_indices := ∅;
                       HttpInteraction._parameter_indices := ∅ |})
              | None => Raise EngineError
              end)
       ∧ (interaction = "Async" →
          issued (Pact.upon_receiving description interaction) s
            = [ffi.new_message_interaction (Pact._handle p) description]
          ∧ outcome r =
              match engine (snd s)
                      (ffi.new_message_interaction (Pact._handle p)
                                                   description) with
              | Some h =>
                  Return (Async
                    {| AsyncMessageInteraction._description := description;
                       AsyncMessageInteraction.__handle :=
                         {| ffi.interaction_ref := h |} |})
              | None => Raise EngineError
              end)
       ∧ (interaction = "Sync" →
          issued (Pact.upon_receiving description interaction) s
            = [ffi.new_sync_message_interaction (Pact._handle p) description]
          ∧ outcome r =
              match engine (snd s)
                      (ffi.new_sync_message_interaction (Pact._handle p)
                                                        description) with
              | Some h =>
                  Return (Sync
                    {| SyncMessageInteraction._description := description;
                       SyncMessageInteraction.__handle :=
                         {| ffi.interaction_ref := h |};
                       SyncMessageInteraction.__interaction_part :=
                         ffi.REQUEST |})
              | None => Raise EngineError
              end)
       ∧ (interaction ≠ "HTTP" → interaction ≠ "Async" → interaction ≠ "Sync" →
          r = (Raise (ValueError (String.append "Invalid interaction type: "
                                                interaction)), s))).
Proof.
  intros Hinit s. apply pact_init_run in Hinit as (_ & _ & _ & Hempty & _).
  assert (fst s = p) as Hs.
  { set (R := λ s s' : Pact.t * World, fst s' = fst s).
    assert (Reflexive R) by done.
    assert (Transitive R) by (intros ??? E1 E2; unfold R in *; congruence).
    apply (run_calls_rel _ R (λ _, True)); [|by apply Forall_true].
    intros c s' _. apply do_pact_call_object. }
  split_and!; [done | done | by rewrite Hs |].
  intros description interaction r. subst r. destruct s as [p' w']. simpl in Hs.
  subst p'. unfold issued. rewrite upon_receiving_run. simpl.
  split_and!.
  - repeat case_decide; done.
  - intros ->. rewrite decide_True by done. simpl. by rewrite issued_since_app.
  - intros ->. rewrite decide_False, decide_True by done. simpl.
    by rewrite issued_since_app.
  - intros ->. rewrite decide_False, decide_False, decide_True by done. simpl.
    by rewrite issued_since_app.
  - intros ???. by rewrite !decide_False.
Qed.

End PactFacts.

(** A witness for C10: three interactions, one of each kind, and some other
    calls on a new pact, and then the interaction a further
    [upon_receiving] hands back. *)
Lemma pact_fields_unchanged_witness :
  let p := {| Pact._consumer := "consumer"; Pact._provider := "provider";
              Pact._interactions := []; Pact._handle := example_pact_handle |} in
  let cs := [call_upon_receiving "a request" "HTTP";
             call_with_specification (inl "v3");
             call_upon_receiving "a message" "Async";
             call_with_metadata "tool" [("name", "pact"); ("version", "3")];
             call_upon_receiving "a query" "Sync";
             call_upon_receiving "nothing" "bogus"] in
  Pact.__init__ (host := example_host) "consumer" "provider" []
    = (Return p, [ffi.new_pact "consumer" "provider"])
  ∧ fst (run_calls (do_pact_call (host := example_host)) cs
           (p, [ffi.new_pact "consumer" "provider"])) = p
  ∧ Pact._interactions
      (fst (run_calls (do_pact_call (host := example_host)) cs
              (p, [ffi.new_pact "consumer" "provider"])))
    = []
  ∧ outcome (Pact.upon_receiving (host := example_host) "a reply" "Sync"
               (run_calls (do_pact_call (host := example_host)) cs
                  (p, [ffi.new_pact "consumer" "provider"])))
    = Return (Sync {| SyncMessageInteraction._description := "a reply";
                      SyncMessageInteraction.__handle :=
                        {| ffi.interaction_ref := 7 |};
                      SyncMessageInteraction.__interaction_part :=
                        ffi.REQUEST |}).
Proof.
  intros p cs.
  destruct (pact_fields_unchanged (host := example_host) "consumer" "provider"
              [] p [ffi.new_pact "consumer" "provider"] cs eq_refl)
    as (_ & Hsame & Hempty & Hnew).
  destruct (Hnew "a reply" "Sync") as (_ & _ & _ & Hsync & _).
  split_and!; [reflexivity | exact Hsame | exact Hempty |].
  etrans; [exact (proj2 (Hsync eq_refl)) | reflexivity].
Defined.

(** * Further properties *)

(** ** The steps of a method *)

Ltac trace_done :=
  first [ by (eexists _, [_]; split; [reflexivity | repeat constructor])
        | by (eexists _, []; rewrite app_nil_r; split; [reflexivity | constructor]) ].

Section BaseTraces.
Context {host : Host} {I : Type} `{Interaction I}.

(** A method of the base class leaves the object as it is; what it issues
    is for the object's handle and carries no index. *)
Lemma do_call_trace (c : InteractionCall) (i : I) (w : World) :
  ∃ r new, do_call c (i, w) = (r, (i, w ++ new))
           ∧ Forall (λ k, plain k = true ∧ call_handle k = Some (_handle i)) new.
Proof.
  destruct c as [state name value parameters| body ct part | body ct part
                | pn path ct part boundary | name | contents ct part]; simpl.
  - destruct name as [nm|], value as [vl|], parameters as [[d|ps]|];
      rewrite ?given_with_param_run, ?given_with_str_run, ?given_with_dict_run,
              ?given_state_only_run;
      try destruct (json_dumps d); trace_done.
  - rewrite with_body_run. destruct (resolved_part _ _); trace_done.
  - rewrite with_binary_file_run. destruct (resolved_part _ _); trace_done.
  - rewrite with_multipart_file_run. destruct (resolved_part _ _); trace_done.
  - rewrite test_name_run. trace_done.
  - rewrite with_plugin_contents_run.
    destruct contents as [d|s]; [destruct (json_dumps d)|];
      try destruct (resolved_part _ _); trace_done.
Qed.

Lemma run_calls_trace (cs : list InteractionCall) (i : I) (w : World) :
  ∃ new, run_calls do_call cs (i, w) = (i, w ++ new)
         ∧ Forall (λ k, plain k = true ∧ call_handle k = Some (_handle i)) new.
Proof.
  revert w. induction cs as [|c cs IH]; intros w.
  - exists []. by rewrite app_nil_r.
  - change (run_calls do_call (c :: cs) (i, w))
      with (run_calls do_call cs (final (do_call c (i, w)))).
    destruct (do_call_trace c i w) as (r & new1 & E1 & H1).
    destruct (IH (w ++ new1)) as (new2 & E2 & H2).
    exists (new1 ++ new2). rewrite E1.
    change (final (r, (i, w ++ new1))) with (i, w ++ new1).
    split; [|by apply Forall_app].
    etrans; [exact E2|]. by rewrite app_assoc.
Qed.

End BaseTraces.

Section HttpAtoms.
Context {host : Host}.
Import HttpInteraction.

Lemma plain_calls_atoms (i : t) (w new : World) :
  Forall (λ k, plain k = true ∧ call_handle k = Some (__handle i)) new →
  rtc http_atom (i, w) (i, w ++ new).
Proof.
  revert w. induction new as [|k new IH]; intros w Hnew.
  - by rewrite app_nil_r.
  - inversion Hnew as [|?? [Hp Hh] Hrest]; subst.
    eapply rtc_l; [by apply atom_plain|].
    rewrite (cons_middle k w new), app_assoc. by apply IH.
Qed.

Lemma for_each_atoms {A} (body : A → Py (t * World) unit) (xs : list A)
    (s : t * World) :
  (∀ x s, rtc http_atom s (final (body x s))) →
  rtc http_atom s (final (for_each xs body s)).
Proof. intros Hbody. by apply (for_each_rel _ (rtc http_atom)). Qed.

Lemma with_header_atoms name value part (s : t * World) :
  rtc http_atom s (final (with_header name value part s)).
Proof.
  destruct s as [i w]. rewrite with_header_run.
  destruct (resolved_part _ _) as [p|]; [|done].
  apply rtc_once, atom_header.
Qed.

Lemma set_header_atoms name value part (s : t * World) :
  rtc http_atom s (final (set_header name value part s)).
Proof.
  destruct s as [i w]. rewrite set_header_run.
  destruct (resolved_part _ _) as [p|]; [|done].
  by apply rtc_once, atom_plain.
Qed.

Lemma with_query_parameter_atoms name value (s : t * World) :
  rtc http_atom s (final (with_query_parameter name value s)).
Proof.
  destruct s as [i w]. rewrite with_query_parameter_run.
  apply rtc_once, atom_query.
Qed.

(** Every method of an [HttpInteraction] is a sequence of such steps. *)
Lemma do_http_call_atoms (c : HttpCall) (s : t * World) :
  rtc http_atom s (final (do_http_call c s)).
Proof.
  destruct c as [c| method path | name value part | headers part
                | name value part | headers part | name value | parameters
                | status]; simpl.
  - destruct s as [i w]. destruct (do_call_trace c i w) as (r & new & -> & Hn).
    by apply plain_calls_atoms.
  - destruct s as [i w]. rewrite with_request_run. by apply rtc_once, atom_plain.
  - apply with_header_atoms.
  - apply for_each_atoms. intros [n v] s'. apply with_header_atoms.
  - apply set_header_atoms.
  - apply for_each_atoms. intros [n v] s'. apply set_header_atoms.
  - apply with_query_parameter_atoms.
  - apply for_each_atoms. intros [n v] s'. apply with_query_parameter_atoms.
  - destruct s as [i w]. rewrite will_respond_with_run. simpl.
    destruct (engine _ _); simpl.
    + apply rtc_once, atom_respond.
    + by apply rtc_once, atom_plain.
Qed.

Lemma run_calls_atoms (cs : list HttpCall) (s : t * World) :
  rtc http_atom s (run_calls do_http_call cs s).
Proof.
  apply (run_calls_rel _ (rtc http_atom) (λ _, True)).
  - intros c s' _. apply do_http_call_atoms.
  - by apply Forall_true.
Qed.

End HttpAtoms.

Lemma rtc_within {A} (R Q : relation A) `{!Reflexive Q, !Transitive Q} (x y : A) :
  (∀ a b, R a b → Q a b) → rtc R x y → Q x y.
Proof.
  intros Hstep Hrtc. induction Hrtc as [|a b c Hab _ IH]; [reflexivity|].
  etrans; [by apply Hstep | done].
Qed.

(** ** Query parameters *)

Lemma query_indices_app n (w1 w2 : World) :
  query_indices n (w1 ++ w2) = query_indices n w1 ++ query_indices n w2.
Proof.
  induction w1 as [|c w1 IH]; [done|].
  destruct c; simpl; try done. case_decide; simpl; by rewrite IH.
Qed.

Lemma query_indices_plain n (k : ffi.Call) :
  (plain k = true ∨ ∃ h p name index value,
                      k = ffi.with_header_v2 h p name index value) →
  query_indices n [k] = [].
Proof. intros [Hk|(h & p & name & index & value & ->)]; [by destruct k|done]. Qed.

Section QueryParameters.
Context {host : Host}.
Import HttpInteraction.

#[local] Instance query_counts_refl : Reflexive query_counts.
Proof.
  intros s. exists []. rewrite app_nil_r. split; [done|].
  intros n. exists 0%nat. split; [done | lia].
Qed.

#[local] Instance query_counts_trans : Transitive query_counts.
Proof.
  intros s1 s2 s3 (n1 & W1 & C1) (n2 & W2 & C2).
  exists (n1 ++ n2). rewrite W2, W1, app_assoc. split; [done|].
  intros n. destruct (C1 n) as (k1 & E1 & Q1), (C2 n) as (k2 & E2 & Q2).
  exists (k1 + k2)%nat. rewrite query_indices_app, E1, E2, Q1, upfrom_app.
  split; [done | lia].
Qed.

Lemma http_atom_query_counts (s s' : t * World) :
  http_atom s s' → query_counts s s'.
Proof.
  intros Hatom. destruct Hatom as [i w k Hp Hh | i w p name value
                                  | i w name value | i w status];
    eexists [_]; (split; [reflexivity|]); intros n; simpl fst.
  - exists 0%nat. rewrite query_indices_plain by by left. split; [done | lia].
  - exists 0%nat. split; [done | unfold query_counter; simpl; lia].
  - simpl. destruct (decide (name = n)) as [->|Hn].
    + exists 1%nat. split.
      * unfold upfrom. simpl. f_equal. lia.
      * unfold query_counter at 1. simpl. by rewrite lookup_insert_eq.
    + exists 0%nat. split; [done|].
      unfold query_counter at 1. simpl. rewrite lookup_insert_ne by done.
      unfold query_counter. lia.
  - exists 0%nat. split; [done | unfold query_counter; simpl; lia].
Qed.

Lemma run_calls_query_counts (cs : list HttpCall) (s : t * World) :
  query_counts s (run_calls do_http_call cs s).
Proof.
  apply (rtc_within http_atom query_counts);
    [apply http_atom_query_counts | apply run_calls_atoms].
Qed.

(** X1: on one HTTP interaction, the indices recorded by
    [with_query_parameter] for one parameter name are 0, 1, 2, ... in the
    order of the calls, whatever other calls (headers included) are made in
    between; the name is taken as it is written, and one call records the
    counter of its name, adds one to it and leaves the counter of every
    other name, also of one that differs only in case. *)
Theorem query_index_sequence pact_handle description (w0 : World) (i : t)
    (w1 : World) (cs : list HttpCall) (n : string) :
  __init__ pact_handle description w0 = (Return i, w1) →
  let s := run_calls do_http_call cs (i, w1) in
  (∃ k : nat,
      query_indices n (issued_since w1 (snd s)) = upto k
      ∧ query_counter (fst s) n = Z.of_nat k)
  ∧ (∀ name value,
       let s' := final (with_query_parameter name value s) in
       issued (with_query_parameter name value) s =
         [ffi.with_query_parameter_v2 (__handle (fst s)) name
                                      (query_counter (fst s) name) value]
       ∧ query_counter (fst s') name = query_counter (fst s) name + 1
       ∧ (∀ n', n' ≠ name → query_counter (fst s') n' = query_counter (fst s) n')
       ∧ ∀ p n', header_counter (fst s') p n' = header_counter (fst s) p n').
Proof.
  intros Hinit s. apply http_init_run in Hinit as (_ & _ & _ & Hidx & _).
  split.
  - destruct (run_calls_query_counts cs (i, w1)) as (new & Hw & Hcount).
    fold s in Hw, Hcount. simpl in Hw, Hcount.
    destruct (Hcount n) as (k & Hk & Hc).
    assert (query_counter i n = 0) as Hz
      by (unfold query_counter; by rewrite Hidx, lookup_empty).
    exists k. rewrite Hw, issued_since_app, Hk, Hc, Hz. split; [done | lia].
  - intros name value. destruct s as [i' w']. unfold issued. simpl.
    rewrite with_query_parameter_run. simpl. rewrite issued_since_app.
    split_and!; [done | | |done].
    + unfold query_counter at 1. simpl. by rewrite lookup_insert_eq.
    + intros n' Hne. unfold query_counter at 1. simpl.
      by rewrite lookup_insert_ne.
Qed.

End QueryParameters.

(** A witness for X1: [name], a header of the same name, [Name], [name]. *)
Lemma query_index_sequence_witness :
  let cs := [call_with_query_parameter (host := example_host) "name" "John";
             call_with_header "name" "x" None;
             call_with_query_parameter "Name" "Ann";
             call_with_query_parameter "name" "Mary"] in
  let s := run_calls do_http_call cs example_http in
  HttpInteraction.__init__ (host := example_host) example_pact_handle
      "a request" [ffi.new_pact "consumer" "provider"]
    = (Return (fst example_http), snd example_http)
  ∧ (∃ k : nat,
        query_indices "name" (issued_since (snd example_http) (snd s)) = upto k
        ∧ query_counter (fst s) "name" = Z.of_nat k)
  ∧ query_indices "name" (issued_since (snd example_http) (snd s)) = [0; 1]
  ∧ query_indices "Name" (issued_since (snd example_http) (snd s)) = [0].
Proof.
  intros cs s.
  destruct (query_index_sequence (host := example_host) example_pact_handle
              "a request" [ffi.new_pact "consumer" "provider"]
              (fst example_http) (snd example_http) cs "name" eq_refl)
    as (Hseq & _).
  split_and!; [reflexivity | exact Hseq | reflexivity | reflexivity].
Defined.

(** ** Whose calls they are *)

Section OwnCalls.
Context {host : Host}.
Import HttpInteraction.

#[local] Instance own_calls_refl : Reflexive own_calls.
Proof. intros s. exists []. by rewrite app_nil_r. Qed.

#[local] Instance own_calls_trans : Transitive own_calls.
Proof.
  intros s1 s2 s3 (n1 & W1 & F1 & H1 & D1) (n2 & W2 & F2 & H2 & D2).
  exists (n1 ++ n2). rewrite W2, W1, app_assoc, H2, H1, D2, D1.
  split_and!; try done. apply Forall_app. split; [done|]. by rewrite <- H1.
Qed.

Lemma http_atom_own_calls (s s' : t * World) : http_atom s s' → own_calls s s'.
Proof.
  intros Hatom. destruct Hatom as [i w k Hp Hh | i w p name value
                                  | i w name value | i w status];
    eexists [_]; (split; [reflexivity|]); split_and!; try done;
    by repeat constructor.
Qed.

(** X3: whatever is called on an interaction, every call into the binding
    is made for the handle the interaction was given when it was made, and
    the handle and the description never change: for the methods of the base
    class on any kind of interaction, which leave the whole object as it is,
    and for all methods of an HTTP interaction. *)
Theorem calls_carry_own_handle :
  (∀ (I : Type) (HI : Interaction I) (cs : list InteractionCall) (i : I)
     (w : World),
     fst (run_calls do_call cs (i, w)) = i
     ∧ ∃ new, snd (run_calls do_call cs (i, w)) = w ++ new
              ∧ Forall (λ k, call_handle k = Some (_handle i)) new)
  ∧ (∀ (cs : list HttpCall) (i : t) (w : World),
       let s := run_calls do_http_call cs (i, w) in
       __handle (fst s) = __handle i
       ∧ _description (fst s) = _description i
       ∧ ∃ new, snd s = w ++ new
                ∧ Forall (λ k, call_handle k = Some (__handle i)) new).
Proof.
  split.
  - intros I HI cs i w. destruct (run_calls_trace cs i w) as (new & -> & Hnew).
    split; [done|]. exists new. split; [done|].
    eapply Forall_impl; [exact Hnew|]. by intros k [_ Hk].
  - intros cs i w s.
    assert (own_calls (i, w) s) as (new & Hw & Hnew & Hh & Hd).
    { apply (rtc_within http_atom own_calls);
        [apply http_atom_own_calls | apply run_calls_atoms]. }
    split_and!; [done | done |]. by exists new.
Qed.

End OwnCalls.

(** ** Asynchronous messages *)

Section AsyncMessage.
Context {host : Host}.


End AsyncMessage.

(** On the example: a body for the response of an asynchronous message is
    passed to the binding as such. *)
Example async_response_body :
  issued (Interaction.with_body (host := example_host) (Some "pong")
            "text/plain" (Some "Response")) example_async
  = [ffi.with_body {| ffi.interaction_ref := 1 |} ffi.RESPONSE "text/plain"
       (Some "pong")].
Proof. reflexivity. Qed.

(** ** A part that is neither ["Request"] nor ["Response"] *)

Section InvalidPart.
Context {host : Host}.
Import HttpInteraction.

Lemma resolved_part_invalid cur (p : string) :
  p ≠ "Request" → p ≠ "Response" → resolved_part cur (Some p) = None.
Proof. intros H1 H2. unfold resolved_part. by rewrite !decide_False. Qed.

Lemma for_each_first_raises {S A} (body : A → Py S unit) (e : Exn)
    (xs : list A) (s : S) :
  (∀ x s, body x s = (Raise e, s)) →
  for_each xs body s = (if xs is [] then Return tt else Raise e, s).
Proof.
  intros Hbody. destruct xs as [|x xs]; [done|].
  simpl. by rewrite bind_run, Hbody.
Qed.

(** X5: a method of an HTTP interaction that is given a part other than
    ["Request"] and ["Response"] raises [ValueError] naming that part,
    makes no call into the binding and leaves the interaction, with its
    header counters, as it was.  Two cases stand apart: plugin contents
    given as a dictionary are encoded first, so a dictionary that cannot be
    encoded raises its own error; and [with_headers] and [set_headers] look
    at the part only when they reach a header, so with no header at all they
    return. *)
Theorem invalid_part_rejected (p : string) (c : HttpCall) (i : t) (w : World) :
  p ≠ "Request" → p ≠ "Response" →
  part_argument c = Some p →
  let r := do_http_call c (i, w) in
  let invalid := Raise (ValueError (String.append "Invalid part: " p)) in
  final r = (i, w)
  ∧ outcome r =
      match c with
      | inherited (call_with_plugin_contents (a_dict d) _ _) =>
          if json_dumps d is Some _ then invalid else Raise JSONEncodeError
      | call_with_headers headers _ | call_set_headers headers _ =>
          if pairs_of headers is [] then Return tt else invalid
      | _ => invalid
      end.
Proof.
  intros H1 H2 Hc r invalid. subst r invalid.
  destruct c as [b| | name value part | headers part | name value part
                | headers part | | | ]; try discriminate;
    [destruct b; try discriminate|..]; simpl in Hc; subst part; simpl.
  - by rewrite with_body_run, (resolved_part_invalid _ p H1 H2).
  - by rewrite with_binary_file_run, (resolved_part_invalid _ p H1 H2).
  - by rewrite with_multipart_file_run, (resolved_part_invalid _ p H1 H2).
  - rewrite with_plugin_contents_run.
    destruct contents as [d|js]; [destruct (json_dumps d)|]; by rewrite ?(resolved_part_invalid _ p H1 H2).
  - by rewrite with_header_run, (resolved_part_invalid _ p H1 H2).
  - unfold with_headers. fold (pairs_of headers).
    rewrite (for_each_first_raises _
               (ValueError (String.append "Invalid part: " p))).
    + by destruct (pairs_of headers).
    + intros [n v] [i' w']. rewrite with_header_run.
      by rewrite (resolved_part_invalid _ p H1 H2).
  - by rewrite set_header_run, (resolved_part_invalid _ p H1 H2).
  - unfold set_headers. fold (pairs_of headers).
    rewrite (for_each_first_raises _
               (ValueError (String.append "Invalid part: " p))).
    + by destruct (pairs_of headers).
    + intros [n v] [i' w']. rewrite set_header_run.
      by rewrite (resolved_part_invalid _ p H1 H2).
Qed.

End InvalidPart.

(** A witness for X5: the part ["response"], in lower case. *)
Lemma invalid_part_rejected_witness :
  let c := call_with_header (host := example_host) "X-Foo" "bar"
             (Some "response") in
  "response" ≠ "Request" ∧ "response" ≠ "Response"
  ∧ part_argument c = Some "response"
  ∧ do_http_call c example_http
    = (Raise (ValueError "Invalid part: response"), example_http).
Proof.
  intros c.
  assert ("response" ≠ "Request") as H1 by discriminate.
  assert ("response" ≠ "Response") as H2 by discriminate.
  destruct (invalid_part_rejected (host := example_host) "response" c
              (fst example_http) (snd example_http) H1 H2 eq_refl)
    as [Hfinal Houtcome].
  split_and!; [exact H1 | exact H2 | reflexivity |].
  destruct (do_http_call c example_http) as [r s'] eqn:E.
  change (do_http_call c (fst example_http, snd example_http)) with
    (do_http_call c example_http) in Hfinal, Houtcome.
  rewrite E in Hfinal, Houtcome. simpl in Hfinal, Houtcome.
  by rewrite Hfinal, Houtcome.
Defined.

(** ** Making a pact *)

Section PactInit.
Context {host : Host}.

Lemma run_calls_pact_object (cs : list PactCall) (s : Pact.t * World) :
  fst (run_calls do_pact_call cs s) = fst s.
Proof.
  set (R := λ s s' : Pact.t * World, fst s' = fst s).
  assert (Reflexive R) by done.
  assert (Transitive R) by (intros ??? E1 E2; unfold R in *; congruence).
  apply (run_calls_rel _ R (λ _, True)); [|by apply Forall_true].
  intros c s' _. apply do_pact_call_object.
Qed.

(** X6: [Pact(consumer, provider)] raises [ValueError] exactly when one of
    the names is empty, the consumer being looked at first, and then makes
    no call into the binding; otherwise it makes the one [new_pact] call
    and the pact has the handle the engine gives and the names as they were
    passed.  So the names of a pact are never empty, whatever is called on
    it afterwards. *)
Theorem pact_init_validation (consumer provider : string) (w : World) :
  let r := Pact.__init__ consumer provider w in
  (is_ValueError (outcome r) ↔ consumer = "" ∨ provider = "")
  ∧ (consumer = "" →
     r = (Raise (ValueError "Consumer name cannot be empty."), w))
  ∧ (consumer ≠ "" → provider = "" →
     r = (Raise (ValueError "Provider name cannot be empty."), w))
  ∧ (consumer ≠ "" → provider ≠ "" →
     r = (match engine w (ffi.new_pact consumer provider) with
          | Some h => Return {| Pact._consumer := consumer;
                                Pact._provider := provider;
                                Pact._interactions := [];
                                Pact._handle := {| ffi.pact_ref := h |} |}
          | None => Raise EngineError
          end, w ++ [ffi.new_pact consumer provider]))
  ∧ (∀ p w1 cs, r = (Return p, w1) →
       let p' := fst (run_calls do_pact_call cs (p, w1)) in
       Pact.consumer p' = consumer ∧ Pact.provider p' = provider
       ∧ Pact.consumer p' ≠ "" ∧ Pact.provider p' ≠ "").
Proof.
  intros r. subst r. unfold Pact.__init__.
  destruct (decide (consumer = "")) as [Hc|Hc];
    [|destruct (decide (provider = "")) as [Hp|Hp]].
  - split_and!; try done.
    + split; [by left | by eexists].
  - split_and!; try done.
    + split; [by right | by eexists].
  - rewrite bind_run. unfold invoke. simpl.
    destruct (engine w (ffi.new_pact consumer provider)) as [h|] eqn:Hh; simpl.
    + split_and!; try done.
      * split; [by intros [msg ?] | by intros [?|?]].
      * intros p w1 cs E. cbv [mret py_mret py_ret] in E.
        injection E as <- <-. rewrite run_calls_pact_object. by simpl.
    + split_and!; try done.
      split; [by intros [msg ?] | by intros [?|?]].
Qed.

End PactInit.

(** With the example engine: both names given, one missing, both missing. *)
Example pact_init_example :
  outcome (Pact.__init__ (host := example_host) "consumer" "provider" [])
    = Return (fst example_pact)
  ∧ Pact.__init__ (host := example_host) "" "provider" []
    = (Raise (ValueError "Consumer name cannot be empty."), [])
  ∧ Pact.__init__ (host := example_host) "consumer" "" []
    = (Raise (ValueError "Provider name cannot be empty."), [])
  ∧ Pact.__init__ (host := example_host) "" "" []
    = (Raise (ValueError "Consumer name cannot be empty."), []).
Proof. repeat split; reflexivity. Qed.

(** ** Metadata *)

Section Metadata.
Context {host : Host}.



End Metadata.

(** With the example engine: two items, then none. *)
Example with_metadata_example :
  issued (Pact.with_metadata (host := example_host) "tool"
            [("name", "pact"); ("version", "3")]) example_pact
  = [ffi.with_pact_metadata example_pact_handle "tool" "name" "pact";
     ffi.with_pact_metadata example_pact_handle "tool" "version" "3"]
  ∧ Pact.with_metadata (host := example_host) "tool" [] example_pact
    = (Return tt, example_pact).
Proof. split; reflexivity. Qed.

(** ** Calls of a pact *)

Section PactCalls.
Context {host : Host}.

#[local] Instance pact_own_calls_refl : Reflexive pact_own_calls.
Proof. intros s. exists []. by rewrite app_nil_r. Qed.

#[local] Instance pact_own_calls_trans : Transitive pact_own_calls.
Proof.
  intros s1 s2 s3 (n1 & W1 & F1 & E1) (n2 & W2 & F2 & E2).
  exists (n1 ++ n2). rewrite W2, W1, app_assoc, E2, E1.
  split_and!; try done. apply Forall_app. split; [done|]. by rewrite <- E1.
Qed.

Lemma pact_one_call (p : Pact.t) (w : World) (k : ffi.Call)
    (s' : Pact.t * World) :
  s' = (p, w ++ [k]) → call_pact k = Some (Pact._handle p) →
  pact_own_calls (p, w) s'.
Proof. intros -> Hk. exists [k]. split_and!; try done. by constructor. Qed.

Ltac one_pact_call :=
  eapply pact_one_call;
  [ py_run; unfold invoke; simpl; destruct (engine _ _); reflexivity
  | reflexivity ].

Lemma do_pact_call_own (c : PactCall) (s : Pact.t * World) :
  pact_own_calls s (final (do_pact_call c s)).
Proof.
  destruct s as [p w].
  destruct c as [version | name version | namespace metadata
                | description interaction | addr port transport cfg |
                | kind | directory overwrite]; simpl.
  - destruct version as [v|v]; rewrite ?with_specification_str_run;
      try destruct (PactSpecification_getitem _);
      try (change (pact_own_calls (p, w) (p, w)); reflexivity);
      rewrite with_specification_typed_run; by eapply pact_one_call.
  - unfold Pact.using_plugin. one_pact_call.
  - apply (for_each_rel _ pact_own_calls). intros [k v] [p' w'].
    one_pact_call.
  - rewrite bind_run, upon_receiving_run. simpl.
    repeat case_decide;
      try (change (pact_own_calls (p, w) (p, w)); reflexivity);
      destruct (engine _ _); by eapply pact_one_call.
  - change (pact_own_calls (p, w) (p, w)). reflexivity.
  - unfold Pact.messages. one_pact_call.
  - unfold Pact.interactions. py_run.
    repeat case_decide;
      try (change (pact_own_calls (p, w) (p, w)); reflexivity);
      one_pact_call.
  - unfold Pact.write_file. one_pact_call.
Qed.

(** X8: whatever is called on a pact ([with_specification], [using_plugin],
    [with_metadata], [upon_receiving], [serve], [messages], [interactions],
    [write_file]), every call into the binding is made for the pact's own
    handle, and the pact is left as it was. *)
Theorem pact_calls_carry_own_handle (cs : list PactCall) (p : Pact.t)
    (w : World) :
  let s := run_calls do_pact_call cs (p, w) in
  fst s = p
  ∧ ∃ new, snd s = w ++ new
           ∧ Forall (λ k, call_pact k = Some (Pact._handle p)) new.
Proof.
  intros s.
  assert (pact_own_calls (p, w) s) as (new & Hw & Hnew & Hp).
  { apply (run_calls_rel _ pact_own_calls (λ _, True));
      [|by apply Forall_true]. intros c s' _. apply do_pact_call_own. }
  split; [done|]. by exists new.
Qed.

(** X9: [serve] makes no call into the binding and leaves the pact alone;
    the server it returns is not running (no handle, port 0) and keeps the
    pact's handle and the arguments, so that entering it asks the engine
    for a mock server of this pact at exactly the address, port, transport
    and configuration given to [serve]; the port read inside is the one the
    engine hands back, not the one asked for. *)
Theorem serve_then_enter (addr : string) (port : Z) (transport : string)
    (transport_config : option string) (p : Pact.t) (w : World) :
  ∃ srv,
    Pact.serve addr port transport transport_config (p, w) = (Return srv, (p, w))
    ∧ PactServer._handle srv = None
    ∧ PactServer.port srv = 0
    ∧ PactServer.host srv = addr
    ∧ PactServer.transport srv = transport
    ∧ ∀ w',
        let c := ffi.create_mock_server_for_transport
                   (Pact._handle p) addr port transport transport_config in
        issued PactServer.__enter__ (srv, w') = [c]
        ∧ ∀ r, engine w' c = Some r →
            let srv' := fst (final (PactServer.__enter__ (srv, w'))) in
            PactServer.port srv' = r
            ∧ PactServer.host srv' = addr
            ∧ PactServer.transport srv' = transport.
Proof.
  eexists. split; [reflexivity|]. split_and!; try done.
  intros w' c. unfold issued. rewrite enter_run. simpl. fold c.
  split.
  - destruct (engine w' c); simpl; by rewrite issued_since_app.
  - intros r Hr. by rewrite Hr.
Qed.

End PactCalls.

(** ** Entering a server again *)

Section ServerCalls.
Context {host : Host}.

Lemma enters_snoc (cs : list ServerCall) (c : ServerCall) :
  enters (cs ++ [c]) = (enters cs + if is_enter c then 1 else 0)%nat.
Proof.
  unfold enters. rewrite List.filter_app, length_app. simpl.
  by destruct (is_enter c).
Qed.

Lemma replicate_snoc {A} (n : nat) (x : A) :
  replicate (n + 1) x = replicate n x ++ [x].
Proof. induction n as [|n IH]; simpl; [done|]. by rewrite IH. Qed.

(** X10: a server can be entered and left any number of times: neither
    method refuses.  All that ever changes in the server is the handle it
    holds; [__exit__] makes no call into the binding and every [__enter__]
    makes the same one, so the calls made are as many equal
    [create_mock_server_for_transport] calls as the server was entered.
    After a further [__exit__] the port reads 0; after a further
    [__enter__] that the engine accepts it reads what the engine handed
    back, whatever handle was held before. *)
Theorem server_reentry (cs : list ServerCall) (srv : PactServer.t) (w : World) :
  let s := run_calls do_server_call cs (srv, w) in
  fst s = PactServer.set__handle (PactServer._handle (fst s)) srv
  ∧ snd s = w ++ replicate (enters cs) (create_call srv)
  ∧ (∀ exc,
       PactServer.port
         (fst (run_calls do_server_call (cs ++ [call_exit exc]) (srv, w))) = 0)
  ∧ (∀ r, engine (snd s) (create_call srv) = Some r →
       PactServer.port
         (fst (run_calls do_server_call (cs ++ [call_enter]) (srv, w))) = r).
Proof.
  intros s.
  assert (fst s = PactServer.set__handle (PactServer._handle (fst s)) srv
          ∧ snd s = w ++ replicate (enters cs) (create_call srv)) as [Hsrv Hw].
  { subst s. induction cs as [|c cs IH] using rev_ind.
    - simpl. rewrite app_nil_r. by destruct srv.
    - rewrite run_calls_app, enters_snoc. simpl.
      destruct (run_calls do_server_call cs (srv, w)) as [srv1 w1].
      simpl in IH. destruct IH as [IH1 IH2]. subst w1.
      assert (create_call srv1 = create_call srv) as Hcreate
        by (rewrite IH1; by destruct srv).
      destruct c as [|exc]; simpl.
      + rewrite enter_run. fold (create_call srv1). rewrite Hcreate.
        rewrite replicate_snoc, app_assoc. cbv zeta.
        destruct (engine _ _); simpl; (split; [|done]);
          rewrite IH1; by destruct srv.
      + rewrite exit_run. simpl. rewrite Nat.add_0_r.
        split; [|done]. rewrite IH1. by destruct srv. }
  split_and!; [done | done | |].
  - intros exc. rewrite run_calls_app. simpl. fold s.
    destruct s as [srv1 w1]. by rewrite exit_run.
  - intros r Hr. rewrite run_calls_app. simpl. fold s.
    destruct s as [srv1 w1]. simpl in *. rewrite enter_run. cbv zeta.
    fold (create_call srv1).
    assert (create_call srv1 = create_call srv) as ->
      by (rewrite Hsrv; by destruct srv).
    by rewrite Hr.
Qed.

End ServerCalls.

(** With the example engine: enter, leave, enter again. *)
Example server_reentry_example :
  let srv := PactServer.__init__ example_pact_handle "localhost" 0 "http" None in
  let s := run_calls (do_server_call (host := example_host))
             [call_enter; call_exit None; call_enter] (srv, snd example_pact) in
  PactServer.port (fst s) = 2
  ∧ snd s = snd example_pact ++ [create_call srv; create_call srv].
Proof. split; reflexivity. Qed.

(** ** The names version strings are looked up under *)

Lemma dot_upper_idem_char (c : ascii) :
  dot_char (upper_char (dot_char (upper_char c))) = dot_char (upper_char c).
Proof. by destruct c as [[] [] [] [] [] [] [] []]. Qed.

Lemma replace_dot_upper_idem (s : string) :
  replace_dot (upper (replace_dot (upper s))) = replace_dot (upper s).
Proof.
  unfold replace_dot, upper. induction s as [|c s IH]; [done|].
  cbn [str_map]. by rewrite IH, dot_upper_idem_char.
Qed.

Lemma upper_replace_dot_upper (s : string) :
  upper (replace_dot (upper s)) = replace_dot (upper s).
Proof.
  unfold upper, replace_dot. induction s as [|c s IH]; [done|].
  cbn [str_map]. rewrite IH. f_equal. by destruct c as [[] [] [] [] [] [] [] []].
Qed.

Lemma replace_dot_idem (s : string) : replace_dot (replace_dot s) = replace_dot s.
Proof.
  unfold replace_dot. induction s as [|c s IH]; [done|].
  cbn [str_map]. rewrite IH. f_equal. by destruct c as [[] [] [] [] [] [] [] []].
Qed.

Lemma member_name_cases (s : string) :
  (startswith_V (replace_dot (upper s)) = true
   ∧ Pact.member_name s = replace_dot (upper s))
  ∨ (startswith_V (replace_dot (upper s)) = false
     ∧ Pact.member_name s = String "V" (replace_dot (upper s))).
Proof.
  unfold Pact.member_name.
  destruct (startswith_V (replace_dot (upper s))); [by left | by right].
Qed.

Lemma member_name_starts_with_V (s : string) :
  startswith_V (Pact.member_name s) = true.
Proof. by destruct (member_name_cases s) as [[Hv ->]|[Hv ->]]. Qed.

Lemma member_name_idem (s : string) :
  Pact.member_name (Pact.member_name s) = Pact.member_name s.
Proof.
  destruct (member_name_cases s) as [[Hv ->]|[Hv ->]]; unfold Pact.member_name.
  - by rewrite replace_dot_upper_idem, Hv.
  - change (replace_dot (upper (String "V" (replace_dot (upper s)))))
      with (String "V" (replace_dot (upper (replace_dot (upper s))))).
    by rewrite replace_dot_upper_idem.
Qed.

Section MemberNames.
Context {host : Host}.

(** X11: the name a version string is looked up under always begins with
    [V], is in upper case and has no dot, whatever the string; it is its
    own name, so passing such a name selects the member of that name; and a
    member whose name does not begin with [V] cannot be selected by any
    string: [with_specification] never looks it up. *)
Theorem member_name_canonical (s : string) (p : Pact.t) (w : World) :
  startswith_V (Pact.member_name s) = true
  ∧ upper (Pact.member_name s) = Pact.member_name s
  ∧ replace_dot (Pact.member_name s) = Pact.member_name s
  ∧ Pact.member_name (Pact.member_name s) = Pact.member_name s
  ∧ Pact.with_specification (inl (Pact.member_name s)) (p, w)
    = Pact.with_specification (inl s) (p, w)
  ∧ (∀ name, startswith_V name = false → Pact.member_name s ≠ name)
  ∧ (∀ name v, startswith_V name = false →
       (∀ other, other ≠ name → PactSpecification_getitem other ≠ Some v) →
       issued (Pact.with_specification (inl s)) (p, w)
       ≠ [ffi.with_specification (Pact._handle p) v]).
Proof.
  pose proof (member_name_starts_with_V s) as HV.
  pose proof (member_name_idem s) as Hidem.
  assert (∀ name, startswith_V name = false → Pact.member_name s ≠ name) as Hne.
  { intros name Hname <-. by rewrite HV in Hname. }
  split_and!; [done | | | done | | done |].
  - destruct (member_name_cases s) as [[Hv ->]|[Hv ->]].
    + apply upper_replace_dot_upper.
    + change (upper (String "V" (replace_dot (upper s))))
        with (String "V" (upper (replace_dot (upper s)))).
      by rewrite upper_replace_dot_upper.
  - destruct (member_name_cases s) as [[Hv ->]|[Hv ->]].
    + apply replace_dot_idem.
    + change (replace_dot (String "V" (replace_dot (upper s))))
        with (String "V" (replace_dot (replace_dot (upper s)))).
      by rewrite replace_dot_idem.
  - by rewrite !with_specification_str_run, Hidem.
  - intros name v Hname Honly. unfold issued.
    rewrite with_specification_str_run.
    destruct (PactSpecification_getitem (Pact.member_name s)) as [v'|] eqn:Hget.
    + rewrite with_specification_typed_run. simpl. rewrite issued_since_app.
      intros [= ->]. by apply (Honly (Pact.member_name s) (Hne name Hname)).
    + simpl. by rewrite issued_since_refl.
Qed.

End MemberNames.

(** With the example members and one more, [UNKNOWN]: no spelling selects
    it. *)
Example unknown_is_not_selected :
  Pact.member_name "unknown" = "VUNKNOWN"
  ∧ Pact.member_name "UNKNOWN" = "VUNKNOWN"
  ∧ Pact.member_name "v4" = "V4"
  ∧ Pact.member_name (Pact.member_name "v1.1") = "V1_1".
Proof. repeat split; reflexivity. Qed.
